(** * EnvHelper: typed access to environment variables

    A shallow embedding of [EnvHelper.hpp] (the header with
    [DefaultValueType], [FixedString], [EnvHelperWithDefault] and
    [EnvHelper]) together with the parts of the C and C++ standard
    libraries it calls: [std::getenv], [std::stoi]/[stol]/[stoll] over
    [strtol]/[strtoll], the floating conversions, and the two output
    streams.

    - a [char] is a [byte]; a C array is a [list byte] that holds its
      terminator; a C string is the part of the array before the first NUL;
    - a [const char*] is either a block of the environment or the [value]
      array of a template parameter object; a [std::string_view] is a
      pointer and a size, it owns nothing;
    - the process is a record with the environment, its memory, the calls
      made to [getenv] and what was inserted into [std::cout] and
      [std::cerr];
    - a function that can throw returns an [outcome]; [try]/[catch] is a
      combinator on the state-and-exception monad [M];
    - the function-local [static] of [EnvHelperWithDefault::get] is a cell
      threaded through the calls;
    - the template parameter [EnvName] is the C string its [FixedString]
      holds, [EnableValueMessage] a [bool], [DefaultValue] a
      [DefaultValueType]. *)

From Stdlib Require Import ZArith List Strings.String Strings.Byte Bool Lia.
From stdpp Require Import gmap strings list fin_maps.

Local Open Scope Z_scope.

(** ** Characters and C strings *)

Definition char_code (c : byte) : Z := Z.of_N (Byte.to_N c).

Definition NUL : byte := x00.

Definition is_nul (c : byte) : bool := char_code c =? 0.

(** [isspace] in the "C" locale: space, and [\t \n \v \f \r]. *)
Definition isspace (c : byte) : bool :=
  (char_code c =? 32) || ((9 <=? char_code c) && (char_code c <=? 13)).

Definition isdigit (c : byte) : bool :=
  (48 <=? char_code c) && (char_code c <=? 57).

Definition digit_value (c : byte) : Z := char_code c - 48.

(** The C string stored in an array: the bytes before the first NUL. *)
Fixpoint c_str (arr : list byte) : list byte :=
  match arr with
  | [] => []
  | c :: arr' => if is_nul c then [] else c :: c_str arr'
  end.

Definition strlen (arr : list byte) : nat := length (c_str arr).

(** [arr[0]]. *)
Definition first_char (arr : list byte) : byte := hd NUL arr.

(** The longest prefix whose characters satisfy [p], and what follows. *)
Fixpoint span (p : byte -> bool) (s : list byte) : list byte * list byte :=
  match s with
  | [] => ([], [])
  | c :: s' =>
      if p c then let '(a, b) := span p s' in (c :: a, b) else ([], s)
  end.

(** ** [strtol] and friends *)

(** What a [strto*] call reports: no conversion ([endptr = nptr]), a value
    and the number of characters consumed, or a range error
    ([errno = ERANGE]) with the number of characters consumed. *)
Inductive strto (A : Type) : Type :=
| NoConversion
| Converted (v : A) (endp : nat)
| RangeError (endp : nat).
Arguments NoConversion {A}.
Arguments Converted {A} v endp.
Arguments RangeError {A} endp.

Definition decimal (ds : list byte) : Z :=
  fold_left (fun acc d => 10 * acc + digit_value d) ds 0.

Definition plus_sign : byte := x2b.
Definition minus_sign : byte := x2d.

(** The optional sign: is it negative, how long is it, what follows. *)
Definition read_sign (s : list byte) : bool * nat * list byte :=
  match s with
  | c :: s' =>
      if Byte.eqb c minus_sign then (true, 1%nat, s')
      else if Byte.eqb c plus_sign then (false, 1%nat, s')
      else (false, 0%nat, s)
  | [] => (false, 0%nat, [])
  end.

(** [strtol(nptr, &endptr, 10)] for a signed type with range [lo..hi]:
    white space, an optional sign, the longest run of decimal digits. *)
Definition strtol_range (lo hi : Z) (nptr : list byte) : strto Z :=
  let '(ws, s1) := span isspace nptr in
  let '(neg, sign_len, s2) := read_sign s1 in
  let '(ds, _) := span isdigit s2 in
  match ds with
  | [] => NoConversion
  | _ :: _ =>
      let v := if neg then - decimal ds else decimal ds in
      let endp := (length ws + sign_len + length ds)%nat in
      if (v <? lo) || (hi <? v) then RangeError endp else Converted v endp
  end.

(** Did the call convert something: a value, from at least one
    character. *)
Definition converts {A : Type} (r : strto A) : bool :=
  match r with
  | Converted _ (S _) => true
  | _ => false
  end.

(** The characters a [strto*] call has consumed. *)
Definition consumed {A : Type} (r : strto A) : nat :=
  match r with
  | NoConversion => 0%nat
  | Converted _ endp | RangeError endp => endp
  end.

(** ** The platform

    The width of [long] and the floating types with their conversions are
    the platform's.  The floating conversions are kept abstract: the
    header only calls them and looks at whether they throw. *)
Class Platform : Type := {
  LONG_BIT : Z;
  float_t : Type;
  double_t : Type;
  long_double_t : Type;
  strtof : list byte -> strto float_t;
  strtod : list byte -> strto double_t;
  strtold : list byte -> strto long_double_t
}.

Definition INT_MIN : Z := - 2 ^ 31.
Definition INT_MAX : Z := 2 ^ 31 - 1.
Definition LONG_MIN `{Platform} : Z := - 2 ^ (LONG_BIT - 1).
Definition LONG_MAX `{Platform} : Z := 2 ^ (LONG_BIT - 1) - 1.
Definition LLONG_MIN : Z := - 2 ^ 63.
Definition LLONG_MAX : Z := 2 ^ 63 - 1.

(** What the C standard asks of every platform: [long] has at least 32
    bits, and a conversion consumes characters of its argument only. *)
Record platform_ok (pf : Platform) : Prop := {
  LONG_BIT_min : 32 <= LONG_BIT;
  strtof_consumed : forall s, (consumed (strtof s) <= length s)%nat;
  strtod_consumed : forall s, (consumed (strtod s) <= length s)%nat;
  strtold_consumed : forall s, (consumed (strtold s) <= length s)%nat
}.

Definition strtol `{Platform} : list byte -> strto Z :=
  strtol_range LONG_MIN LONG_MAX.
Definition strtoll : list byte -> strto Z :=
  strtol_range LLONG_MIN LLONG_MAX.

(** ** Exceptions *)

(** The exceptions of <stdexcept> the header meets; all of them derive from
    [std::exception].  The argument is what [what()] returns. *)
Inductive exception : Type :=
| invalid_argument (what_arg : string)
| out_of_range (what_arg : string)
| runtime_error (what_arg : string).

Definition what (e : exception) : string :=
  match e with
  | invalid_argument s | out_of_range s | runtime_error s => s
  end.

Inductive outcome (A : Type) : Type :=
| Return (a : A)
| Throw (e : exception).
Arguments Return {A} a.
Arguments Throw {A} e.

(** [std::sto*(str)]: the [strto*] function is called on the string; no
    conversion throws [invalid_argument], a range error or a value outside
    the return type throws [out_of_range].  The position is computed and,
    the header passing no [pos], dropped by the callers. *)
Definition stoa {A : Type} (convf : list byte -> strto A)
    (name : string) (out_of_ret : A -> bool)
    (str : list byte) : outcome (A * nat) :=
  match convf str with
  | NoConversion => Throw (invalid_argument name)
  | Converted v endp =>
      if Nat.eqb endp 0 then Throw (invalid_argument name)
      else if out_of_ret v then Throw (out_of_range name)
      else Return (v, endp)
  | RangeError endp =>
      if Nat.eqb endp 0 then Throw (invalid_argument name)
      else Throw (out_of_range name)
  end.

Definition stoi `{Platform} : list byte -> outcome (Z * nat) :=
  stoa strtol "stoi" (fun v => (v <? INT_MIN) || (INT_MAX <? v)).
Definition stol `{Platform} : list byte -> outcome (Z * nat) :=
  stoa strtol "stol" (fun _ => false).
Definition stoll : list byte -> outcome (Z * nat) :=
  stoa strtoll "stoll" (fun _ => false).
Definition stof `{Platform} : list byte -> outcome (float_t * nat) :=
  stoa strtof "stof" (fun _ => false).
Definition stod `{Platform} : list byte -> outcome (double_t * nat) :=
  stoa strtod "stod" (fun _ => false).
Definition stold `{Platform} : list byte -> outcome (long_double_t * nat) :=
  stoa strtold "stold" (fun _ => false).

(** ** Pointers, views and values *)

(** A [const char*] of the program: into a block of the environment, or to
    the [value] array of a template parameter object (static, constant,
    identified by its contents). *)
Inductive pointer : Type :=
| EnvPtr (b : N)
| ParamObj (value : list byte).

(** [std::string_view]: a pointer and a length, nothing is owned. *)
Record string_view : Type := { sv_data : pointer; sv_size : nat }.

(** The types [EnvHelper] accepts, and the [ExportType]s for which
    [EnvHelperWithDefault::get] compiles. *)
Inductive Type_ : Type :=
| Tint | Tlong | Tlong_long
| Tfloat | Tdouble | Tlong_double
| Tchar
| Tstring_view.

Inductive scalar `{Platform} : Type :=
| Sint (n : Z)
| Slong (n : Z)
| Slong_long (n : Z)
| Sfloat (x : float_t)
| Sdouble (x : double_t)
| Slong_double (x : long_double_t)
| Schar (c : byte).

(** A value of one of the export types: [T] itself or a view. *)
Inductive ExportType `{Platform} : Type :=
| Scalar (v : scalar)
| View (sv : string_view).

Definition type_of_scalar `{Platform} (v : scalar) : Type_ :=
  match v with
  | Sint _ => Tint
  | Slong _ => Tlong
  | Slong_long _ => Tlong_long
  | Sfloat _ => Tfloat
  | Sdouble _ => Tdouble
  | Slong_double _ => Tlong_double
  | Schar _ => Tchar
  end.

(** ** [DefaultValueType<T, N>]

    [SaveType] is [T], or [char [N]] when [T] is [char] and [N] is not 0.
    The scalar form is kept to the seven types for which
    [EnvHelperWithDefault::get] is well formed (with another integral [T]
    the returns of its lambda disagree on their type).  The array form
    has [N = length value]; it is never empty, a reference to an array
    having at least one element. *)
Inductive DefaultValueType `{Platform} : Type :=
| Default_scalar (value : scalar)
| Default_chars (value : list byte).

Definition N_of `{Platform} (d : DefaultValueType) : nat :=
  match d with
  | Default_scalar _ => 0%nat
  | Default_chars value => length value
  end.

(** [for (size_t i = 0; i < N; ++i) value[i] = str[i];] with [n]
    iterations left. *)
Fixpoint copy_chars (str : list byte) (i n : nat) (value : list byte)
    : list byte :=
  match n with
  | O => value
  | S n' => copy_chars str (S i) n' (<[i := nth i str NUL]> value)
  end.

(** [DefaultValueType(T val)]. *)
Definition DefaultValueType_of_value `{Platform} (val : scalar)
    : DefaultValueType :=
  Default_scalar val.

(** [DefaultValueType(const T (&str)[N])]: [value{}] is zero-initialised,
    then filled by the loop. *)
Definition DefaultValueType_of_array `{Platform} (str : list byte)
    : DefaultValueType :=
  let N := length str in
  Default_chars (copy_chars str 0 N (replicate N NUL)).

(** [DefaultValueType::get]. *)
Definition DefaultValueType_get `{Platform} (d : DefaultValueType)
    : ExportType :=
  match d with
  | Default_chars value =>
      View {| sv_data := ParamObj value; sv_size := (length value - 1)%nat |}
  | Default_scalar value => Scalar value
  end.

(** [decltype(DefaultValue)::ExportType]. *)
Definition ExportType_of `{Platform} (d : DefaultValueType) : Type_ :=
  match d with
  | Default_chars _ => Tstring_view
  | Default_scalar value => type_of_scalar value
  end.

(** ** The process *)

(** What has been inserted into a stream, one entry per [<<].  The
    header declares no [operator<<] for [DefaultValueType]: the insertion
    of [DefaultValue] itself, in the notice of an absent variable, is kept
    as [Holder]. *)
Inductive item `{Platform} : Type :=
| Chars (s : string)            (* a literal, [EnvName.value], [e.what()] *)
| CString (bs : list byte)      (* [env], as read when inserted *)
| Exported (v : ExportType)     (* [DefaultValue.get()] *)
| Holder (d : DefaultValueType) (* [DefaultValue] itself *)
| Endl.

Record World `{Platform} : Type := {
  environ : gmap string N;          (* name -> block of its value *)
  memory : gmap N (list byte);      (* block -> the array stored there *)
  getenv_calls : list string;       (* names looked up so far *)
  cout : list item;
  cerr : list item
}.

(** The array a pointer points to. *)
Definition array_at `{Platform} (w : World) (p : pointer) : list byte :=
  match p with
  | EnvPtr b => default [] (memory w !! b)
  | ParamObj value => value
  end.

(** The characters a view denotes. *)
Definition view_chars `{Platform} (w : World) (sv : string_view)
    : list byte :=
  take (sv_size sv) (array_at w (sv_data sv)).

(** State and exceptions. *)
Definition M `{Platform} (A : Type) : Type := World -> outcome A * World.

#[global] Instance M_ret `{Platform} : MRet M :=
  fun A a w => (Return a, w).
#[global] Instance M_bind `{Platform} : MBind M :=
  fun A B f m w =>
    match m w with
    | (Return a, w') => f a w'
    | (Throw e, w') => (Throw e, w')
    end.

Definition throw `{Platform} {A : Type} (e : exception) : M A :=
  fun w => (Throw e, w).

(** [try { body } catch (const std::exception& e) { handler }]: every
    [exception] of the model derives from [std::exception]. *)
Definition try_catch `{Platform} {A : Type} (body : M A)
    (handler : exception -> M A) : M A :=
  fun w =>
    match body w with
    | (Return a, w') => (Return a, w')
    | (Throw e, w') => handler e w'
    end.

Definition log_getenv `{Platform} (name : string) (w : World) : World :=
  {| environ := environ w; memory := memory w;
     getenv_calls := getenv_calls w ++ [name];
     cout := cout w; cerr := cerr w |}.

Definition put_cout `{Platform} (xs : list item) (w : World) : World :=
  {| environ := environ w; memory := memory w;
     getenv_calls := getenv_calls w;
     cout := cout w ++ xs; cerr := cerr w |}.

Definition put_cerr `{Platform} (xs : list item) (w : World) : World :=
  {| environ := environ w; memory := memory w;
     getenv_calls := getenv_calls w;
     cout := cout w; cerr := cerr w ++ xs |}.

(** [std::getenv]: a pointer to the value, [None] for [nullptr]. *)
Definition getenv `{Platform} (name : string) : M (option pointer) :=
  fun w => (Return (EnvPtr <$> environ w !! name), log_getenv name w).

(** A chain of [<<] on [std::cout], on [std::cerr]. *)
Definition cout_insert `{Platform} (xs : list item) : M unit :=
  fun w => (Return tt, put_cout xs w).

Definition cerr_insert `{Platform} (xs : list item) : M unit :=
  fun w => (Return tt, put_cerr xs w).

(** The C string at [p], as [operator<<(const char* )] and
    [std::string(const char* )] read it. *)
Definition read_c_str `{Platform} (p : pointer) : M (list byte) :=
  fun w => (Return (c_str (array_at w p)), w).

Definition nl : string := String (Ascii.ascii_of_nat 10) EmptyString.

(** [setenv(name, value, 1)] and [unsetenv(name)] of the C library, by
    which the environment changes between two calls: the value is copied
    to a new block, earlier blocks stay as they are. *)
Definition setenv `{Platform} (name : string) (value : list byte)
    (w : World) : World :=
  let b := fresh (dom (memory w)) in
  {| environ := <[name := b]> (environ w);
     memory := <[b := c_str value ++ [NUL]]> (memory w);
     getenv_calls := getenv_calls w;
     cout := cout w; cerr := cerr w |}.

Definition unsetenv `{Platform} (name : string) (w : World) : World :=
  {| environ := delete name (environ w); memory := memory w;
     getenv_calls := getenv_calls w;
     cout := cout w; cerr := cerr w |}.

(** ** The conversion shared by the two [get]s

    The chain of [if constexpr] on the export type, on the array [arr]
    that [env] points to.  The [sto*] functions take a [std::string] built
    from [env] and their position is not asked for; [char] is [env[0]];
    the view is [std::string_view(env)], from [env] to its terminator. *)
Definition outcome_map {A B : Type} (f : A -> B) (r : outcome A)
    : outcome B :=
  match r with
  | Return a => Return (f a)
  | Throw e => Throw e
  end.

Definition convert_from `{Platform} (T : Type_) (env : pointer)
    (arr : list byte) : outcome ExportType :=
  match T with
  | Tint => outcome_map (fun r => Scalar (Sint (fst r))) (stoi (c_str arr))
  | Tlong => outcome_map (fun r => Scalar (Slong (fst r))) (stol (c_str arr))
  | Tlong_long =>
      outcome_map (fun r => Scalar (Slong_long (fst r))) (stoll (c_str arr))
  | Tfloat => outcome_map (fun r => Scalar (Sfloat (fst r))) (stof (c_str arr))
  | Tdouble =>
      outcome_map (fun r => Scalar (Sdouble (fst r))) (stod (c_str arr))
  | Tlong_double =>
      outcome_map (fun r => Scalar (Slong_double (fst r)))
        (stold (c_str arr))
  | Tchar => Return (Scalar (Schar (first_char arr)))
  | Tstring_view => Return (View {| sv_data := env; sv_size := strlen arr |})
  end.

Definition convert `{Platform} (T : Type_) (env : pointer) : M ExportType :=
  fun w => (convert_from T env (array_at w env), w).

Module EnvHelperWithDefault.

(** The lambda that initialises [static auto value]. *)
Definition lambda `{Platform} (EnvName : string)
    (DefaultValue : DefaultValueType) (EnableValueMessage : bool)
    : M ExportType :=
  env ← getenv EnvName;
  match env with
  | None =>
      (if EnableValueMessage then
         cout_insert [Chars EnvName; Chars " is not set, using default: ";
                      Holder DefaultValue; Chars nl]
       else mret tt);;
      mret (DefaultValueType_get DefaultValue)
  | Some env =>
      (if EnableValueMessage then
         s ← read_c_str env;
         cout_insert [Chars EnvName; Chars " is set to: "; CString s;
                      Chars nl]
       else mret tt);;
      try_catch (convert (ExportType_of DefaultValue) env)
        (fun e =>
           s ← read_c_str env;
           cerr_insert [Chars "[EnvHelper] "; Chars EnvName;
                        Chars " conversion failed: (env='"; CString s;
                        Chars "'), using default value: ";
                        Exported (DefaultValueType_get DefaultValue);
                        Endl];;
           cerr_insert [Chars (what e); Endl];;
           mret (DefaultValueType_get DefaultValue))
  end.

(** [get]: [value] is the function-local static, [None] until its
    initialiser has completed; an initialiser that throws leaves it
    uninitialised. *)
Definition get `{Platform} (EnvName : string)
    (DefaultValue : DefaultValueType) (EnableValueMessage : bool)
    (value : option ExportType) (w : World)
    : outcome ExportType * option ExportType * World :=
  match value with
  | Some v => (Return v, Some v, w)
  | None =>
      match lambda EnvName DefaultValue EnableValueMessage w with
      | (Return v, w') => (Return v, Some v, w')
      | (Throw e, w') => (Throw e, None, w')
      end
  end.

End EnvHelperWithDefault.

Module EnvHelper.

Definition get `{Platform} (EnvName : string) (T : Type_)
    (EnableValueMessage : bool) : M ExportType :=
  env ← getenv EnvName;
  match env with
  | None =>
      cerr_insert
        [Chars EnvName;
         Chars (" is not set and no default value is provided." +:+ nl)];;
      throw (runtime_error
               (EnvName +:+ " is not set and no default value is provided."))
  | Some env =>
      (if EnableValueMessage then
         s ← read_c_str env;
         cout_insert [Chars EnvName; Chars " is set to: "; CString s;
                      Chars nl]
       else mret tt);;
      try_catch (convert T env)
        (fun e =>
           s ← read_c_str env;
           cerr_insert [Chars "[EnvHelperNoDefault] "; Chars EnvName;
                        Chars " conversion failed: (env='"; CString s;
                        Chars "')"; Endl];;
           cerr_insert [Chars (what e); Endl];;
           throw e)
  end.

End EnvHelper.

(** ** The vocabulary of the specification *)

(** What a resolved value holds: a scalar, or the characters its view
    denotes in the memory of the process. *)
Inductive content `{Platform} : Type :=
| Number (v : scalar)
| Text (chars : list byte).

Definition content_of `{Platform} (w : World) (v : ExportType) : content :=
  match v with
  | Scalar s => Number s
  | View sv => Text (view_chars w sv)
  end.

(** The raw text of a variable, [None] when it is not set. *)
Definition raw_text `{Platform} (w : World) (name : string)
    : option (list byte) :=
  b ← environ w !! name; Some (c_str (array_at w (EnvPtr b))).

Definition is_integer (T : Type_) : bool :=
  match T with Tint | Tlong | Tlong_long => true | _ => false end.

Definition is_floating (T : Type_) : bool :=
  match T with Tfloat | Tdouble | Tlong_double => true | _ => false end.

Definition is_numeric (T : Type_) : bool := is_integer T || is_floating T.

(** The values of an integer type. *)
Definition integer_range `{Platform} (T : Type_) : option (Z * Z) :=
  match T with
  | Tint => Some (INT_MIN, INT_MAX)
  | Tlong => Some (LONG_MIN, LONG_MAX)
  | Tlong_long => Some (LLONG_MIN, LLONG_MAX)
  | _ => None
  end.

Definition integer_value `{Platform} (T : Type_) (v : Z) : scalar :=
  match T with
  | Tlong => Slong v
  | Tlong_long => Slong_long v
  | _ => Sint v
  end.

(** A decimal numeral: white space, an optional sign, digits. *)
Inductive sign_t : Type := NoSign | Plus | Minus.

Record numeral : Type := {
  spaces : list byte;
  sign : sign_t;
  digits : list byte
}.

Definition sign_chars (sg : sign_t) : list byte :=
  match sg with
  | NoSign => []
  | Plus => [plus_sign]
  | Minus => [minus_sign]
  end.

Definition numeral_text (n : numeral) : list byte :=
  spaces n ++ sign_chars (sign n) ++ digits n.

Definition numeral_value (n : numeral) : Z :=
  match sign n with
  | Minus => - decimal (digits n)
  | _ => decimal (digits n)
  end.

Definition well_formed (n : numeral) : bool :=
  forallb isspace (spaces n) && forallb isdigit (digits n)
  && negb (Nat.eqb (length (digits n)) 0).

Definition begins_with (p : byte -> bool) (s : list byte) : bool :=
  match s with
  | c :: _ => p c
  | [] => false
  end.

Definition begins_with_digit : list byte -> bool := begins_with isdigit.

Fixpoint drop_spaces (s : list byte) : list byte :=
  match s with
  | c :: s' => if isspace c then drop_spaces s' else s
  | [] => []
  end.

Definition drop_sign (s : list byte) : list byte :=
  match s with
  | c :: s' =>
      if Byte.eqb c minus_sign || Byte.eqb c plus_sign then s' else s
  | [] => []
  end.

(** Malformed for an integer type: past the white space and one optional
    sign there is no digit. *)
Definition no_number (s : list byte) : bool :=
  negb (begins_with_digit (drop_sign (drop_spaces s))).

(** The platform's conversion for a floating type, with the value wrapped. *)
Definition floating_conversion `{Platform} (T : Type_) (s : list byte)
    : strto scalar :=
  let wrap {A} (f : A -> scalar) (r : strto A) : strto scalar :=
    match r with
    | NoConversion => NoConversion
    | Converted v endp => Converted (f v) endp
    | RangeError endp => RangeError endp
    end in
  match T with
  | Tfloat => wrap Sfloat (strtof s)
  | Tdouble => wrap Sdouble (strtod s)
  | Tlong_double => wrap Slong_double (strtold s)
  | _ => NoConversion
  end.

(** [reads T p rest v]: in the text [p ++ rest] of a numeric type [T], [p]
    is a representation of the value [v] and [rest] is what trails it.
    For an integer type [p] is a numeral of a value of the type and [rest]
    begins with no digit; for a floating type [p] is what the platform's
    conversion recognises, with value [v]. *)
Inductive reads `{Platform} : Type_ -> list byte -> list byte -> scalar -> Prop :=
| reads_integer T lo hi n rest :
    integer_range T = Some (lo, hi) ->
    well_formed n = true ->
    begins_with_digit rest = false ->
    lo <= numeral_value n <= hi ->
    reads T (numeral_text n) rest (integer_value T (numeral_value n))
| reads_floating T p rest v :
    is_floating T = true ->
    p <> [] ->
    floating_conversion T (p ++ rest) = Converted v (length p) ->
    reads T p rest v.

(** [represents T s v]: the text [s] is a textual representation of the
    value [v] of type [T]. *)
Inductive represents `{Platform} : Type_ -> list byte -> content -> Prop :=
| represents_numeric T s v :
    reads T s [] v -> represents T s (Number v)
| represents_char c :
    represents Tchar [c] (Number (Schar c))
| represents_text s :
    represents Tstring_view s (Text s).

(** [unparsable T s]: the text [s] does not parse as the type [T]: empty
    for a numeric type, malformed, or out of range. *)
Inductive unparsable `{Platform} : Type_ -> list byte -> Prop :=
| unparsable_empty T :
    is_numeric T = true -> unparsable T []
| unparsable_malformed T s :
    is_integer T = true -> no_number s = true -> unparsable T s
| unparsable_out_of_range T lo hi n rest :
    integer_range T = Some (lo, hi) ->
    well_formed n = true ->
    begins_with_digit rest = false ->
    numeral_value n < lo \/ hi < numeral_value n ->
    unparsable T (numeral_text n ++ rest)
| unparsable_floating T s :
    is_floating T = true ->
    converts (floating_conversion T s) = false ->
    unparsable T s.

(** The [sto*] function of an integer type. *)
Definition integer_sto `{Platform} (T : Type_)
    : list byte -> outcome (Z * nat) :=
  match T with
  | Tlong => stol
  | Tlong_long => stoll
  | _ => stoi
  end.

(** The exception a failed conversion throws: its kind, and the name of
    the function as its [what()] (as libstdc++ has it). *)
Definition sto_name (T : Type_) : string :=
  match T with
  | Tint => "stoi"
  | Tlong => "stol"
  | Tlong_long => "stoll"
  | Tfloat => "stof"
  | Tdouble => "stod"
  | Tlong_double => "stold"
  | _ => ""
  end.

Definition conversion_error (T : Type_) (e : exception) : Prop :=
  e = invalid_argument (sto_name T) \/ e = out_of_range (sto_name T).

(** What the two [get]s print. *)
Definition set_notice `{Platform} (EnvName : string) (enabled : bool)
    (s : list byte) : list item :=
  if enabled
  then [Chars EnvName; Chars " is set to: "; CString s; Chars nl]
  else [].

Definition unset_notice `{Platform} (EnvName : string) (enabled : bool)
    (d : DefaultValueType) : list item :=
  if enabled
  then [Chars EnvName; Chars " is not set, using default: "; Holder d;
        Chars nl]
  else [].

Definition fallback_diagnostic `{Platform} (EnvName : string)
    (s : list byte) (d : DefaultValueType) (e : exception) : list item :=
  [Chars "[EnvHelper] "; Chars EnvName; Chars " conversion failed: (env='";
   CString s; Chars "'), using default value: ";
   Exported (DefaultValueType_get d); Endl; Chars (what e); Endl].

Definition conversion_diagnostic `{Platform} (EnvName : string)
    (s : list byte) (e : exception) : list item :=
  [Chars "[EnvHelperNoDefault] "; Chars EnvName;
   Chars " conversion failed: (env='"; CString s; Chars "')"; Endl;
   Chars (what e); Endl].

Definition not_set_message (EnvName : string) : string :=
  EnvName +:+ " is not set and no default value is provided.".

(** Every string of the environment is in memory. *)
Definition environ_backed `{Platform} (w : World) : Prop :=
  forall name b, environ w !! name = Some b -> is_Some (memory w !! b).

(** A change of the environment between two calls. *)
Inductive mutation : Type :=
| Setenv (name : string) (value : list byte)
| Unsetenv (name : string).

Definition mutate `{Platform} (m : mutation) (w : World) : World :=
  match m with
  | Setenv name value => setenv name value w
  | Unsetenv name => unsetenv name w
  end.

(** Calls of [EnvHelperWithDefault::get], each after a change of the
    environment: what each call returned, and the static and the process
    after the last. *)
Fixpoint calls_after `{Platform} (EnvName : string)
    (DefaultValue : DefaultValueType) (EnableValueMessage : bool)
    (script : list mutation) (value : option ExportType) (w : World)
    : list (outcome ExportType) * option ExportType * World :=
  match script with
  | [] => ([], value, w)
  | m :: script' =>
      let '(r, value', w') :=
        EnvHelperWithDefault.get EnvName DefaultValue EnableValueMessage
          value (mutate m w) in
      let '(rs, value'', w'') :=
        calls_after EnvName DefaultValue EnableValueMessage script'
          value' w' in
      (r :: rs, value'', w'')
  end.

(** ** A platform to run the model on

    LP64, and floating conversions that read the plain decimal notation
    [digits[.digits]] into an exact decimal fraction.  The examples at the
    end use it; the theorems hold on every platform. *)
Record decimal_fraction : Type := { mantissa : Z; scale : nat }.

Definition point : byte := x2e.

Definition strto_decimal (nptr : list byte) : strto decimal_fraction :=
  let '(ws, s1) := span isspace nptr in
  let '(neg, sign_len, s2) := read_sign s1 in
  let '(ip, s3) := span isdigit s2 in
  match ip with
  | [] => NoConversion
  | _ :: _ =>
      let fp :=
        match s3 with
        | c :: s4 => if Byte.eqb c point then fst (span isdigit s4) else []
        | [] => []
        end in
      let frac_len :=
        match fp with [] => 0%nat | _ :: _ => S (length fp) end in
      let m := decimal (ip ++ fp) in
      Converted {| mantissa := if neg then - m else m; scale := length fp |}
        (length ws + sign_len + length ip + frac_len)%nat
  end.

Definition lp64 : Platform := {|
  LONG_BIT := 64;
  float_t := decimal_fraction;
  double_t := decimal_fraction;
  long_double_t := decimal_fraction;
  strtof := strto_decimal;
  strtod := strto_decimal;
  strtold := strto_decimal
|}.

Definition bytes (s : string) : list byte := list_byte_of_string s.

Definition empty_world `{Platform} : World :=
  {| environ := ∅; memory := ∅; getenv_calls := []; cout := []; cerr := [] |}.

(** A process on the sample platform whose only variable is [PORT]. *)
Definition port_is (text : string) : @World lp64 :=
  @setenv lp64 "PORT" (bytes text) (@empty_world lp64).

(** ** The rest of the header, and [main] *)

(** The type of an exported value. *)
Definition type_of `{Platform} (v : ExportType) : Type_ :=
  match v with
  | Scalar s => type_of_scalar s
  | View _ => Tstring_view
  end.

(** [FixedString<N>]: [char value[N]], with [N = length value]. *)
Module FixedString.

Record t : Type := { value : list byte }.

(** [FixedString(const char (&str)[N])]: [value] has no initialiser, it
    holds [uninit] (of [N] elements) when the loop starts. *)
Definition construct (uninit str : list byte) : t :=
  let N := length str in
  {| value := copy_chars str 0 N uninit |}.

(** [operator std::string_view()]: [{value, N - 1}]. *)
Definition to_string_view (fs : t) : string_view :=
  {| sv_data := ParamObj (value fs);
     sv_size := (length (value fs) - 1)%nat |}.

(** [EnvName.value] used as a [const char*]: what [std::getenv] looks up
    and [operator<<] prints. *)
Definition c_string (fs : t) : list byte := c_str (value fs).

(** The same, as the key of [environ]. *)
Definition name (fs : t) : string := string_of_list_byte (c_string fs).

End FixedString.

(** The application writes into the array of block [b] (a string it has
    given to [putenv] stays its own). *)
Definition overwrite `{Platform} (b : N) (arr : list byte) (w : World)
    : World :=
  {| environ := environ w; memory := <[b := arr]> (memory w);
     getenv_calls := getenv_calls w;
     cout := cout w; cerr := cerr w |}.

(** The call of an instantiation of [EnvHelperWithDefault] whose static is
    not initialised yet, as each one is in [main]. *)
Definition first_use `{Platform} (EnvName : string)
    (DefaultValue : DefaultValueType) (EnableValueMessage : bool)
    : M ExportType :=
  fun w =>
    let '(r, _, w') :=
      EnvHelperWithDefault.get EnvName DefaultValue EnableValueMessage None w
    in (r, w').

(** [main]: four instantiations, each called once and printed; the
    literal [123.4] is the platform's [double] of that name. *)
Definition main `{Platform} (literal_123_4 : double_t) : M Z :=
  let PATH :=
    FixedString.name
      (FixedString.construct (replicate 5 NUL) (bytes "PATH" ++ [NUL])) in
  let PATH2 :=
    FixedString.name
      (FixedString.construct (replicate 6 NUL) (bytes "PATH2" ++ [NUL])) in
  v ← first_use PATH (DefaultValueType_of_array (bytes "teee" ++ [NUL])) false;
  cout_insert [Exported v; Endl];;
  v ← first_use PATH (DefaultValueType_of_value (Schar x61)) false;
  cout_insert [Exported v; Endl];;
  v ← first_use PATH (DefaultValueType_of_value (Sdouble literal_123_4)) false;
  cout_insert [Exported v; Endl];;
  v ← first_use PATH2 (DefaultValueType_of_value (Sint 123)) false;
  cout_insert [Exported v; Endl];;
  mret 0.

(** The literal [123.4] on the sample platform. *)
Definition lp64_123_4 : @double_t lp64 := {| mantissa := 1234; scale := 1 |}.

(** A numeral with [k] zeros before its digits. *)
Definition with_zeros (k : nat) (n : numeral) : numeral :=
  {| spaces := spaces n; sign := sign n;
     digits := replicate k x30 ++ digits n |}.

(** * Properties *)

(** ** Characters *)

Lemma is_nul_NUL (c : byte) : is_nul c = true -> c = NUL.
Proof. destruct c; vm_compute; congruence. Qed.

Lemma isdigit_not_isspace (c : byte) : isdigit c = true -> isspace c = false.
Proof. destruct c; vm_compute; congruence. Qed.

Lemma isdigit_not_sign (c : byte) :
  isdigit c = true ->
  Byte.eqb c minus_sign = false /\ Byte.eqb c plus_sign = false.
Proof. destruct c; vm_compute; intuition congruence. Qed.

Lemma isdigit_not_nul (c : byte) : isdigit c = true -> is_nul c = false.
Proof. destruct c; vm_compute; congruence. Qed.

Lemma isspace_not_nul (c : byte) : isspace c = true -> is_nul c = false.
Proof. destruct c; vm_compute; congruence. Qed.

Lemma digit_value_bounds (c : byte) :
  isdigit c = true -> 0 <= digit_value c <= 9.
Proof.
  unfold isdigit, digit_value. intros H.
  apply andb_true_iff in H as [H1 H2]. lia.
Qed.

(** ** C strings *)

Lemma c_str_no_nul (arr : list byte) :
  forallb (fun c => negb (is_nul c)) (c_str arr) = true.
Proof.
  induction arr as [|c arr IH]; simpl; [reflexivity|].
  destruct (is_nul c) eqn:E; simpl; [reflexivity|].
  rewrite E. exact IH.
Qed.

Lemma c_str_terminated (s rest : list byte) :
  forallb (fun c => negb (is_nul c)) s = true ->
  c_str (s ++ NUL :: rest) = s.
Proof.
  induction s as [|c s IH]; simpl; [reflexivity|].
  intros H. apply andb_true_iff in H as [Hc Hs].
  destruct (is_nul c); [discriminate|]. f_equal. auto.
Qed.

Lemma c_str_idem (arr : list byte) : c_str (c_str arr) = c_str arr.
Proof.
  induction arr as [|c arr IH]; simpl; [reflexivity|].
  destruct (is_nul c) eqn:E; simpl; [reflexivity|].
  rewrite E. f_equal. exact IH.
Qed.

Lemma first_char_c_str (arr : list byte) :
  first_char arr = hd NUL (c_str arr).
Proof.
  destruct arr as [|c arr]; simpl; [reflexivity|].
  destruct (is_nul c) eqn:E; simpl; [|reflexivity].
  apply is_nul_NUL. exact E.
Qed.

(** ** [span] *)

Lemma span_app (p : byte -> bool) (a b : list byte) :
  forallb p a = true -> begins_with p b = false -> span p (a ++ b) = (a, b).
Proof.
  intros Ha Hb. induction a as [|c a IH]; simpl.
  - destruct b as [|c b]; [reflexivity|]. simpl in *. rewrite Hb. reflexivity.
  - simpl in Ha. apply andb_true_iff in Ha as [Hc Ha].
    rewrite Hc, (IH Ha). reflexivity.
Qed.

Lemma span_spec (p : byte -> bool) (s : list byte) :
  fst (span p s) ++ snd (span p s) = s
  /\ forallb p (fst (span p s)) = true
  /\ begins_with p (snd (span p s)) = false.
Proof.
  induction s as [|c s (IH1 & IH2 & IH3)]; simpl; [auto|].
  destruct (p c) eqn:E.
  - destruct (span p s) as [a b]. simpl in *. rewrite IH1.
    repeat split; [|exact IH3]. rewrite E. exact IH2.
  - simpl. auto.
Qed.

Lemma span_drop_spaces (s : list byte) :
  snd (span isspace s) = drop_spaces s.
Proof.
  induction s as [|c s IH]; simpl; [reflexivity|].
  destruct (isspace c); [|reflexivity].
  destruct (span isspace s). exact IH.
Qed.

Lemma read_sign_drop_sign (s : list byte) : snd (read_sign s) = drop_sign s.
Proof.
  destruct s as [|c s]; simpl; [reflexivity|].
  destruct (Byte.eqb c minus_sign); [reflexivity|].
  destruct (Byte.eqb c plus_sign); reflexivity.
Qed.

Lemma span_none (p : byte -> bool) (s : list byte) :
  begins_with p s = false -> span p s = ([], s).
Proof.
  destruct s as [|c s]; simpl; [reflexivity|]. intros ->. reflexivity.
Qed.

Lemma span_length (p : byte -> bool) (s : list byte) :
  (length (fst (span p s)) + length (snd (span p s)) = length s)%nat.
Proof.
  destruct (span_spec p s) as [H _].
  rewrite <- H at 3. rewrite length_app. reflexivity.
Qed.

Lemma read_sign_length (s : list byte) :
  (snd (fst (read_sign s)) + length (snd (read_sign s)) = length s)%nat.
Proof.
  destruct s as [|c s]; simpl; [reflexivity|].
  destruct (Byte.eqb c minus_sign); [reflexivity|].
  destruct (Byte.eqb c plus_sign); reflexivity.
Qed.

(** ** [strtol] on numerals *)

Lemma well_formed_inv (n : numeral) :
  well_formed n = true ->
  forallb isspace (spaces n) = true
  /\ forallb isdigit (digits n) = true
  /\ exists d ds, digits n = d :: ds /\ isdigit d = true.
Proof.
  unfold well_formed. intros H.
  apply andb_true_iff in H as [H Hne]. apply andb_true_iff in H as [Hs Hd].
  repeat split; try assumption.
  destruct (digits n) as [|d ds]; [discriminate|].
  exists d, ds. split; [reflexivity|].
  simpl in Hd. apply andb_true_iff in Hd as [Hd _]. exact Hd.
Qed.

Lemma numeral_text_length (n : numeral) :
  well_formed n = true -> length (numeral_text n) <> 0%nat.
Proof.
  intros H. apply well_formed_inv in H as (_ & _ & d & ds & E & _).
  unfold numeral_text. rewrite !length_app, E. simpl. lia.
Qed.

Lemma read_sign_numeral (sg : sign_t) (ds rest : list byte) :
  begins_with isdigit (ds ++ rest) = true ->
  read_sign (sign_chars sg ++ ds ++ rest) =
  (match sg with Minus => true | _ => false end,
   length (sign_chars sg), ds ++ rest).
Proof.
  intros H. destruct sg; simpl; try reflexivity.
  destruct (ds ++ rest) as [|c s]; [discriminate|]. simpl in *.
  destruct (isdigit_not_sign c H) as [-> ->]. reflexivity.
Qed.

Lemma strtol_range_numeral (lo hi : Z) (n : numeral) (rest : list byte) :
  well_formed n = true ->
  begins_with_digit rest = false ->
  strtol_range lo hi (numeral_text n ++ rest) =
  if (numeral_value n <? lo) || (hi <? numeral_value n)
  then RangeError (length (numeral_text n))
  else Converted (numeral_value n) (length (numeral_text n)).
Proof.
  intros Hwf Hrest.
  destruct (well_formed_inv n Hwf) as (Hs & Hd & d & ds & E & Hd0).
  assert (Hb : begins_with isdigit (digits n ++ rest) = true)
    by (rewrite E; exact Hd0).
  unfold strtol_range, numeral_text, numeral_value.
  rewrite <- !app_assoc.
  rewrite (span_app isspace (spaces n)); [|exact Hs|].
  - rewrite read_sign_numeral by exact Hb.
    rewrite (span_app isdigit (digits n) rest Hd Hrest).
    rewrite !length_app, Nat.add_assoc. rewrite E at 1.
    destruct (sign n); reflexivity.
  - destruct (sign n); simpl; try reflexivity.
    destruct (digits n ++ rest) as [|c s]; [discriminate|]. simpl in *.
    apply isdigit_not_isspace. exact Hb.
Qed.

Lemma strtol_range_no_number (lo hi : Z) (s : list byte) :
  no_number s = true -> strtol_range lo hi s = NoConversion.
Proof.
  unfold no_number, strtol_range. intros H.
  apply negb_true_iff in H.
  rewrite <- span_drop_spaces, <- read_sign_drop_sign in H.
  destruct (span isspace s) as [ws s1]. simpl in H.
  destruct (read_sign s1) as [[neg sign_len] s2]. simpl in H.
  rewrite (span_none isdigit s2 H). reflexivity.
Qed.

Lemma strtol_range_consumed (lo hi : Z) (s : list byte) :
  (consumed (strtol_range lo hi s) <= length s)%nat.
Proof.
  unfold strtol_range.
  pose proof (span_length isspace s) as H1.
  destruct (span isspace s) as [ws s1]. simpl in H1.
  pose proof (read_sign_length s1) as H2.
  destruct (read_sign s1) as [[neg sign_len] s2]. simpl in H2.
  pose proof (span_length isdigit s2) as H3.
  destruct (span isdigit s2) as [ds r]. simpl in H3.
  destruct ds as [|d ds]; simpl; [lia|].
  destruct (_ || _); simpl in *; lia.
Qed.

(** Every text is a numeral followed by something that begins with no
    digit, or has no number at all. *)
Lemma numeral_or_no_number (s : list byte) :
  no_number s = true
  \/ exists n rest,
       s = numeral_text n ++ rest /\ well_formed n = true
       /\ begins_with_digit rest = false.
Proof.
  destruct (no_number s) eqn:Hno; [left; reflexivity|right].
  unfold no_number in Hno. apply negb_false_iff in Hno.
  rewrite <- span_drop_spaces in Hno.
  destruct (span_spec isspace s) as (Hs & Hws & _).
  destruct (span isspace s) as [ws s1]. simpl in *.
  destruct (span_spec isdigit (drop_sign s1)) as (Hd & Hds & Hrest).
  destruct (span isdigit (drop_sign s1)) as [ds rest] eqn:Hspan. simpl in *.
  assert (Hne : Nat.eqb (length ds) 0 = false).
  { destruct ds as [|d ds]; [|reflexivity]. simpl in Hd. subst rest.
    change (begins_with isdigit (drop_sign s1) = true) in Hno. congruence. }
  assert (Hsg : exists sg, s1 = sign_chars sg ++ drop_sign s1).
  { destruct s1 as [|c s1]; [exists NoSign; reflexivity|]. simpl.
    destruct (Byte.eqb c minus_sign) eqn:E1; simpl.
    - apply Byte.byte_dec_bl in E1. subst c. exists Minus. reflexivity.
    - destruct (Byte.eqb c plus_sign) eqn:E2.
      + apply Byte.byte_dec_bl in E2. subst c. exists Plus. reflexivity.
      + exists NoSign. reflexivity. }
  destruct Hsg as [sg Hsg].
  exists {| spaces := ws; sign := sg; digits := ds |}, rest.
  unfold numeral_text, well_formed. simpl.
  rewrite Hws, Hds, Hne. repeat split; [|exact Hrest].
  rewrite <- !app_assoc, Hd, <- Hsg. symmetry. exact Hs.
Qed.

(** ** The [sto*] functions *)

Lemma stoa_converts {A : Type} (convf : list byte -> strto A)
    (name : string) (s : list byte) (v : A) (endp : nat) :
  convf s = Converted v endp -> endp <> 0%nat ->
  stoa convf name (fun _ => false) s = Return (v, endp).
Proof.
  unfold stoa. intros -> Hendp. apply Nat.eqb_neq in Hendp.
  rewrite Hendp. reflexivity.
Qed.

Lemma stoa_fails {A : Type} (convf : list byte -> strto A) (name : string)
    (chk : A -> bool) (s : list byte) :
  converts (convf s) = false ->
  exists e, stoa convf name chk s = Throw e
            /\ (e = invalid_argument name \/ e = out_of_range name).
Proof.
  unfold stoa. destruct (convf s) as [|v [|k]|[|k]]; simpl; intros H;
    try discriminate; eauto.
Qed.

Lemma stoa_throws_inv {A : Type} (convf : list byte -> strto A)
    (name : string) (s : list byte) (e : exception) :
  stoa convf name (fun _ => false) s = Throw e ->
  converts (convf s) = false.
Proof.
  unfold stoa. destruct (convf s) as [|v [|k]|k]; simpl; auto. discriminate.
Qed.

Lemma stoa_empty {A : Type} (convf : list byte -> strto A) (name : string)
    (chk : A -> bool) :
  (consumed (convf []) <= 0)%nat ->
  stoa convf name chk [] = Throw (invalid_argument name).
Proof.
  unfold stoa. destruct (convf []) as [|v endp|endp]; simpl; intros H;
    try reflexivity; assert (endp = 0%nat) as -> by lia; reflexivity.
Qed.

Lemma outcome_map_throw {A B : Type} (f : A -> B) (r : outcome A)
    (e : exception) :
  outcome_map f r = Throw e <-> r = Throw e.
Proof. destruct r; simpl; split; congruence. Qed.

Section Conversion.

Context `{pf : Platform} (Hok : platform_ok pf).

Lemma INT_in_LONG : LONG_MIN <= INT_MIN /\ INT_MAX <= LONG_MAX.
Proof.
  destruct Hok as [Hbits _ _ _].
  unfold LONG_MIN, LONG_MAX, INT_MIN, INT_MAX.
  assert (2 ^ 31 <= 2 ^ (LONG_BIT - 1)) by (apply Z.pow_le_mono_r; lia).
  lia.
Qed.

(** The integer conversions on a numeral and what trails it: the value of
    the numeral when the type holds it, [out_of_range] otherwise. *)
Lemma integer_sto_numeral (T : Type_) (lo hi : Z) (n : numeral)
    (rest : list byte) :
  integer_range T = Some (lo, hi) ->
  well_formed n = true ->
  begins_with_digit rest = false ->
  integer_sto T (numeral_text n ++ rest) =
  if (numeral_value n <? lo) || (hi <? numeral_value n)
  then Throw (out_of_range (sto_name T))
  else Return (numeral_value n, length (numeral_text n)).
Proof.
  intros HT Hwf Hrest.
  pose proof (numeral_text_length n Hwf) as Hlen.
  apply Nat.eqb_neq in Hlen.
  pose proof INT_in_LONG as [Hmin Hmax].
  destruct T; inversion HT; subst lo hi;
    unfold integer_sto, stoi, stol, stoll, stoa, strtol, strtoll;
    rewrite (strtol_range_numeral _ _ n rest Hwf Hrest).
  - destruct ((numeral_value n <? LONG_MIN) || (LONG_MAX <? numeral_value n))
      eqn:E1; cbv beta iota; rewrite Hlen.
    + replace ((numeral_value n <? INT_MIN) || (INT_MAX <? numeral_value n))
        with true by (symmetry; apply orb_true_iff; lia).
      reflexivity.
    + destruct (_ || _); reflexivity.
  - destruct (_ || _); cbv beta iota; rewrite Hlen; reflexivity.
  - destruct (_ || _); cbv beta iota; rewrite Hlen; reflexivity.
Qed.

Lemma integer_sto_no_number (T : Type_) (s : list byte) :
  is_integer T = true ->
  no_number s = true ->
  integer_sto T s = Throw (invalid_argument (sto_name T)).
Proof.
  intros HT Hno.
  destruct T; try discriminate HT;
    unfold integer_sto, stoi, stol, stoll, stoa, strtol, strtoll;
    rewrite (strtol_range_no_number _ _ s Hno); reflexivity.
Qed.

Lemma convert_from_integer (T : Type_) (env : pointer) (arr : list byte) :
  is_integer T = true ->
  convert_from T env arr =
  outcome_map (fun r => Scalar (integer_value T (fst r)))
    (integer_sto T (c_str arr)).
Proof. destruct T; try discriminate; reflexivity. Qed.

Lemma convert_from_floating (T : Type_) (env : pointer) (arr : list byte) :
  is_floating T = true ->
  convert_from T env arr =
  outcome_map (fun r => Scalar (fst r))
    (stoa (floating_conversion T) (sto_name T) (fun _ => false) (c_str arr)).
Proof.
  destruct T; try discriminate; intros _;
    unfold convert_from, stof, stod, stold, stoa, floating_conversion.
  - destruct (strtof _) as [|v [|k]|[|k]]; reflexivity.
  - destruct (strtod _) as [|v [|k]|[|k]]; reflexivity.
  - destruct (strtold _) as [|v [|k]|[|k]]; reflexivity.
Qed.

Lemma floating_conversion_consumed (T : Type_) (s : list byte) :
  (consumed (floating_conversion T s) <= length s)%nat.
Proof.
  destruct Hok as [_ Hf Hd Hl].
  destruct T; simpl; try lia.
  - specialize (Hf s). destruct (strtof s); exact Hf.
  - specialize (Hd s). destruct (strtod s); exact Hd.
  - specialize (Hl s). destruct (strtold s); exact Hl.
Qed.

Lemma integer_range_is_integer (T : Type_) (lo hi : Z) :
  integer_range T = Some (lo, hi) -> is_integer T = true.
Proof. destruct T; simpl; congruence. Qed.

(** A text that reads as [v] converts to [v]. *)
Lemma convert_from_reads (T : Type_) (p rest : list byte) (v : scalar)
    (env : pointer) (arr : list byte) :
  reads T p rest v -> c_str arr = p ++ rest ->
  convert_from T env arr = Return (Scalar v).
Proof.
  intros Hreads Harr.
  destruct Hreads as [T lo hi n rest HT Hwf Hrest Hv|T p rest v HT Hp Hconv].
  - rewrite convert_from_integer by (eapply integer_range_is_integer; eauto).
    rewrite Harr, (integer_sto_numeral T lo hi n rest HT Hwf Hrest).
    replace ((numeral_value n <? lo) || (hi <? numeral_value n))
      with false by (symmetry; apply orb_false_iff; lia).
    reflexivity.
  - rewrite convert_from_floating by exact HT.
    rewrite Harr, (stoa_converts _ _ _ v (length p) Hconv); [reflexivity|].
    destruct p; [congruence|discriminate].
Qed.

(** An unparsable text makes the conversion throw. *)
Lemma convert_from_unparsable (T : Type_) (s : list byte) (env : pointer)
    (arr : list byte) :
  unparsable T s -> c_str arr = s ->
  exists e, convert_from T env arr = Throw e /\ conversion_error T e.
Proof.
  intros Hun Harr. unfold conversion_error.
  destruct Hun as [T HT|T s HT Hno|T lo hi n rest HT Hwf Hrest Hv|T s HT Hf].
  - destruct (is_integer T) eqn:Hint.
    + rewrite convert_from_integer, Harr, integer_sto_no_number
        by (assumption || reflexivity).
      eauto.
    + unfold is_numeric in HT. rewrite Hint in HT. simpl in HT.
      rewrite convert_from_floating, Harr by exact HT.
      rewrite stoa_empty by apply (floating_conversion_consumed T []).
      eauto.
  - rewrite convert_from_integer, Harr, integer_sto_no_number by assumption.
    eauto.
  - rewrite convert_from_integer by (eapply integer_range_is_integer; eauto).
    rewrite Harr, (integer_sto_numeral T lo hi n rest HT Hwf Hrest).
    replace ((numeral_value n <? lo) || (hi <? numeral_value n))
      with true by (symmetry; apply orb_true_iff; lia).
    eauto.
  - rewrite convert_from_floating, Harr by exact HT.
    destruct (stoa_fails (floating_conversion T) (sto_name T)
                (fun _ => false) s Hf) as (e & -> & He).
    eauto.
Qed.

(** And it throws on no other text. *)
Lemma convert_from_throws (T : Type_) (env : pointer) (arr : list byte)
    (e : exception) :
  convert_from T env arr = Throw e -> unparsable T (c_str arr).
Proof.
  intros H.
  destruct (is_integer T) eqn:HT; [|destruct (is_floating T) eqn:HF].
  - rewrite convert_from_integer in H by exact HT.
    apply outcome_map_throw in H.
    destruct (numeral_or_no_number (c_str arr))
      as [Hno|(n & rest & Hs & Hwf & Hrest)].
    + apply unparsable_malformed; assumption.
    + rewrite Hs in *.
      destruct (integer_range T) as [[lo hi]|] eqn:Hrange;
        [|destruct T; discriminate].
      rewrite (integer_sto_numeral T lo hi n rest Hrange Hwf Hrest) in H.
      apply (unparsable_out_of_range T lo hi); try assumption.
      destruct (_ || _) eqn:E in H; [lia|discriminate].
  - rewrite convert_from_floating in H by exact HF.
    apply outcome_map_throw, stoa_throws_inv in H.
    apply unparsable_floating; assumption.
  - destruct T; discriminate.
Qed.

(** [unparsable] is exactly the set of texts on which the conversion
    throws. *)
Lemma unparsable_iff_throws (T : Type_) (env : pointer) (arr : list byte) :
  unparsable T (c_str arr) <-> exists e, convert_from T env arr = Throw e.
Proof.
  split.
  - intros Hun.
    destruct (convert_from_unparsable T (c_str arr) env arr Hun eq_refl)
      as (e & He & _).
    eauto.
  - intros [e He]. exact (convert_from_throws T env arr e He).
Qed.

End Conversion.

Lemma put_cout_nil `{Platform} (w : World) : put_cout [] w = w.
Proof. destruct w. unfold put_cout. simpl. rewrite app_nil_r. reflexivity. Qed.

Lemma lambda_unset `{Platform} (EnvName : string) (d : DefaultValueType)
    (enabled : bool) (w : World) :
  environ w !! EnvName = None ->
  EnvHelperWithDefault.lambda EnvName d enabled w =
  (Return (DefaultValueType_get d),
   put_cout (unset_notice EnvName enabled d) (log_getenv EnvName w)).
Proof.
  intros Hw. unfold EnvHelperWithDefault.lambda, mbind, M_bind, getenv.
  rewrite Hw. simpl. destruct enabled; simpl; [reflexivity|].
  rewrite put_cout_nil. reflexivity.
Qed.

Lemma lambda_set `{Platform} (EnvName : string) (d : DefaultValueType)
    (enabled : bool) (w : World) (b : N) :
  environ w !! EnvName = Some b ->
  EnvHelperWithDefault.lambda EnvName d enabled w =
  let arr := array_at w (EnvPtr b) in
  let w1 :=
    put_cout (set_notice EnvName enabled (c_str arr)) (log_getenv EnvName w) in
  match convert_from (ExportType_of d) (EnvPtr b) arr with
  | Return v => (Return v, w1)
  | Throw e =>
      (Return (DefaultValueType_get d),
       put_cerr (fallback_diagnostic EnvName (c_str arr) d e) w1)
  end.
Proof.
  intros Hw.
  unfold EnvHelperWithDefault.lambda, mbind, M_bind, getenv, try_catch,
    convert.
  rewrite Hw. simpl.
  destruct enabled; simpl; rewrite ?put_cout_nil;
    destruct (convert_from _ _ _); simpl; try reflexivity;
    unfold put_cerr, fallback_diagnostic; simpl;
    rewrite <- app_assoc; reflexivity.
Qed.

Lemma get_unset `{Platform} (EnvName : string) (T : Type_) (enabled : bool)
    (w : World) :
  environ w !! EnvName = None ->
  EnvHelper.get EnvName T enabled w =
  (Throw (runtime_error (not_set_message EnvName)),
   put_cerr
     [Chars EnvName;
      Chars (" is not set and no default value is provided." +:+ nl)]
     (log_getenv EnvName w)).
Proof.
  intros Hw. unfold EnvHelper.get, mbind, M_bind, getenv.
  rewrite Hw. reflexivity.
Qed.

Lemma get_set `{Platform} (EnvName : string) (T : Type_) (enabled : bool)
    (w : World) (b : N) :
  environ w !! EnvName = Some b ->
  EnvHelper.get EnvName T enabled w =
  let arr := array_at w (EnvPtr b) in
  let w1 :=
    put_cout (set_notice EnvName enabled (c_str arr)) (log_getenv EnvName w) in
  match convert_from T (EnvPtr b) arr with
  | Return v => (Return v, w1)
  | Throw e =>
      (Throw e, put_cerr (conversion_diagnostic EnvName (c_str arr) e) w1)
  end.
Proof.
  intros Hw.
  unfold EnvHelper.get, mbind, M_bind, getenv, try_catch, convert.
  rewrite Hw. simpl.
  destruct enabled; simpl; rewrite ?put_cout_nil;
    destruct (convert_from _ _ _); simpl; try reflexivity;
    unfold put_cerr, conversion_diagnostic, throw; simpl;
    rewrite <- app_assoc; reflexivity.
Qed.

Lemma raw_text_inv `{Platform} (w : World) (name : string) (s : list byte) :
  raw_text w name = Some s ->
  exists b, environ w !! name = Some b /\ c_str (array_at w (EnvPtr b)) = s.
Proof.
  unfold raw_text. destruct (environ w !! name) as [b|]; simpl; [|discriminate].
  intros [= <-]. eauto.
Qed.

Lemma take_strlen (arr : list byte) : take (strlen arr) arr = c_str arr.
Proof.
  unfold strlen. induction arr as [|c arr IH]; simpl; [reflexivity|].
  destruct (is_nul c); simpl; [reflexivity|]. f_equal. exact IH.
Qed.

Lemma copy_chars_spec (str : list byte) (n i : nat) (value : list byte) :
  length value = length str ->
  (i + n <= length str)%nat ->
  take i value = take i str ->
  copy_chars str i n value = take (i + n) str ++ drop (i + n) value.
Proof.
  revert i value. induction n as [|n IH]; intros i value Hlen Hin Hpre; simpl.
  - rewrite Nat.add_0_r, <- Hpre. symmetry. apply take_drop.
  - assert (Hi : (i < length str)%nat) by lia.
    destruct (lookup_lt_is_Some_2 str i Hi) as [x Hx].
    rewrite (nth_lookup_Some _ _ NUL _ Hx).
    rewrite IH.
    + replace (S i + n)%nat with (i + S n)%nat by lia.
      rewrite drop_insert_lt by lia. reflexivity.
    + rewrite length_insert. exact Hlen.
    + lia.
    + rewrite (take_S_r str i x Hx).
      rewrite (take_S_r (<[i:=x]> value) i x).
      * rewrite take_insert_ge by lia. rewrite Hpre. reflexivity.
      * apply list_lookup_insert_eq. lia.
Qed.

Lemma copy_chars_all (str : list byte) :
  copy_chars str 0 (length str) (replicate (length str) NUL) = str.
Proof.
  rewrite copy_chars_spec.
  - simpl. rewrite firstn_all, drop_ge, app_nil_r; [reflexivity|].
    rewrite length_replicate. lia.
  - apply length_replicate.
  - simpl. lia.
  - reflexivity.
Qed.

Lemma convert_from_represents `{pf : Platform} (T : Type_) (s : list byte)
    (v : content) (w : World) (b : N) :
  platform_ok pf -> represents T s v ->
  c_str (array_at w (EnvPtr b)) = s ->
  exists r,
    convert_from T (EnvPtr b) (array_at w (EnvPtr b)) = Return r
    /\ forall w', memory w' = memory w -> content_of w' r = v.
Proof.
  intros Hok Hrep Harr. destruct Hrep as [T s v Hreads|c|s].
  - exists (Scalar v). split; [|reflexivity].
    apply (convert_from_reads Hok T s [] v); [assumption|].
    rewrite app_nil_r. exact Harr.
  - exists (Scalar (Schar c)). split; [|reflexivity].
    unfold convert_from. rewrite first_char_c_str, Harr. reflexivity.
  - eexists. split; [reflexivity|].
    intros w' Hmem. unfold content_of, view_chars, array_at. simpl.
    rewrite Hmem. f_equal. rewrite <- Harr. apply take_strlen.
Qed.

Lemma raw_text_setenv `{Platform} (name : string) (value : list byte)
    (w : World) :
  raw_text (setenv name value w) name = Some (c_str value).
Proof.
  unfold raw_text, setenv, array_at. simpl.
  rewrite lookup_insert_eq. simpl. rewrite lookup_insert_eq. simpl.
  f_equal. apply c_str_terminated, c_str_no_nul.
Qed.

Lemma required_converted `{Platform} (EnvName : string) (T : Type_)
    (enabled : bool) (w : World) (b : N) (r : ExportType) :
  environ w !! EnvName = Some b ->
  convert_from T (EnvPtr b) (array_at w (EnvPtr b)) = Return r ->
  exists w',
    EnvHelper.get EnvName T enabled w = (Return r, w')
    /\ environ w' = environ w /\ memory w' = memory w /\ cerr w' = cerr w.
Proof.
  intros Hb Hr. rewrite (get_set EnvName T enabled w b Hb). cbv zeta.
  rewrite Hr. eexists. repeat split; reflexivity.
Qed.

Lemma with_default_converted `{Platform} (EnvName : string)
    (d : DefaultValueType) (enabled : bool) (w : World) (b : N)
    (r : ExportType) :
  environ w !! EnvName = Some b ->
  convert_from (ExportType_of d) (EnvPtr b) (array_at w (EnvPtr b))
  = Return r ->
  exists w',
    EnvHelperWithDefault.get EnvName d enabled None w
    = (Return r, Some r, w')
    /\ environ w' = environ w /\ memory w' = memory w /\ cerr w' = cerr w.
Proof.
  intros Hb Hr. unfold EnvHelperWithDefault.get.
  rewrite (lambda_set EnvName d enabled w b Hb). cbv zeta.
  rewrite Hr. eexists. repeat split; reflexivity.
Qed.

Lemma required_represents `{pf : Platform} (T : Type_) (s : list byte)
    (v : content) (EnvName : string) (enabled : bool) (w : World) :
  platform_ok pf ->
  raw_text w EnvName = Some s ->
  represents T s v ->
  exists r w',
    EnvHelper.get EnvName T enabled w = (Return r, w')
    /\ content_of w' r = v.
Proof.
  intros Hok Hraw Hrep.
  apply raw_text_inv in Hraw as (b & Hb & Harr).
  destruct (convert_from_represents T s v w b Hok Hrep Harr) as (r & Hr & Hv).
  destruct (required_converted EnvName T enabled w b r Hb Hr)
    as (w' & Hget & _ & Hmem & _).
  exists r, w'. auto.
Qed.

(** ** The claims *)

(** C1. Round trip: for every supported target type [T] and every text [s]
    that is a valid textual representation of a value [v] of [T], resolving
    a variable whose value is [s] yields exactly [v], with [EnvHelper] and
    with [EnvHelperWithDefault] (whatever the default). *)
Theorem valid_text_resolves `{pf : Platform} (T : Type_) (s : list byte)
    (v : content) (EnvName : string) (enabled : bool) (w : World) :
  platform_ok pf ->
  raw_text w EnvName = Some s ->
  represents T s v ->
  (exists r w',
     EnvHelper.get EnvName T enabled w = (Return r, w')
     /\ content_of w' r = v)
  /\ (forall d, ExportType_of d = T ->
      exists r w',
        EnvHelperWithDefault.get EnvName d enabled None w
        = (Return r, Some r, w')
        /\ content_of w' r = v).
Proof.
  intros Hok Hraw Hrep. split.
  - apply (required_represents T s); assumption.
  - intros d <-.
    apply raw_text_inv in Hraw as (b & Hb & Harr).
    destruct (convert_from_represents _ s v w b Hok Hrep Harr)
      as (r & Hr & Hv).
    destruct (with_default_converted EnvName d enabled w b r Hb Hr)
      as (w' & Hget & _ & Hmem & _).
    exists r, w'. auto.
Qed.

(** C2. When the variable is absent, [EnvHelperWithDefault::get] returns
    the export form of the default and raises nothing (nothing reaches the
    error stream either); for a default built from a character array of
    [N] elements the export form is a view of the stored copy of that
    array, of length [N - 1]: the array without its last element, the
    terminator of a literal. *)
Theorem unset_yields_default `{pf : Platform} (EnvName : string)
    (d : DefaultValueType) (enabled : bool) (w : World) :
  environ w !! EnvName = None ->
  (exists w',
     EnvHelperWithDefault.get EnvName d enabled None w
     = (Return (DefaultValueType_get d), Some (DefaultValueType_get d), w')
     /\ cerr w' = cerr w)
  /\ (forall (init : list byte) (last : byte),
        let str := init ++ [last] in
        let text := DefaultValueType_of_array str in
        let view := {| sv_data := ParamObj str;
                       sv_size := (N_of text - 1)%nat |} in
        N_of text = length str
        /\ DefaultValueType_get text = View view
        /\ sv_size view = length init
        /\ view_chars w view = init).
Proof.
  intros Hw. split.
  - unfold EnvHelperWithDefault.get.
    rewrite (lambda_unset EnvName d enabled w Hw).
    eexists. split; reflexivity.
  - intros init last. cbv zeta. unfold DefaultValueType_of_array.
    rewrite copy_chars_all. unfold view_chars. simpl.
    rewrite length_app. simpl.
    replace (length init + 1 - 1)%nat with (length init) by lia.
    rewrite take_app_length. auto.
Qed.

(** C3. When the variable is present and its text does not parse as the
    target type (empty for a numeric target, malformed, or out of range),
    [EnvHelperWithDefault::get] returns the export form of the default,
    the exception of the conversion is caught, and the error stream
    receives a diagnostic with the name of the variable, the raw text, the
    default and the reason. *)
Theorem unparsable_yields_default `{pf : Platform} (EnvName : string)
    (d : DefaultValueType) (enabled : bool) (w : World) (s : list byte) :
  platform_ok pf ->
  raw_text w EnvName = Some s ->
  unparsable (ExportType_of d) s ->
  exists e w',
    EnvHelperWithDefault.get EnvName d enabled None w
    = (Return (DefaultValueType_get d), Some (DefaultValueType_get d), w')
    /\ conversion_error (ExportType_of d) e
    /\ cerr w' = cerr w ++ fallback_diagnostic EnvName s d e
    /\ In (Chars EnvName) (fallback_diagnostic EnvName s d e)
    /\ In (CString s) (fallback_diagnostic EnvName s d e).
Proof.
  intros Hok Hraw Hun.
  apply raw_text_inv in Hraw as (b & Hb & Harr).
  destruct (convert_from_unparsable Hok (ExportType_of d) s (EnvPtr b)
              (array_at w (EnvPtr b)) Hun Harr) as (e & He & Hk).
  exists e. unfold EnvHelperWithDefault.get.
  rewrite (lambda_set EnvName d enabled w b Hb). cbv zeta. rewrite He, Harr.
  eexists. split; [reflexivity|]. split; [exact Hk|].
  split; [reflexivity|].
  unfold fallback_diagnostic. simpl. auto 10.
Qed.

(** C4. [EnvHelper::get] surfaces its failures: when the variable is absent
    it throws the not-set error, a [runtime_error] naming the variable;
    when the variable is present and its text does not parse as the target
    type, the exception of the conversion is thrown again to the caller.
    In both cases a diagnostic has been written to the error stream. *)
Theorem required_surfaces_failures `{pf : Platform} (EnvName : string)
    (T : Type_) (enabled : bool) (w : World) :
  (environ w !! EnvName = None ->
   exists w',
     EnvHelper.get EnvName T enabled w
     = (Throw (runtime_error (not_set_message EnvName)), w')
     /\ cerr w' =
        cerr w ++ [Chars EnvName;
                   Chars (" is not set and no default value is provided."
                          +:+ nl)])
  /\ (platform_ok pf ->
      forall s, raw_text w EnvName = Some s -> unparsable T s ->
      exists b e w',
        environ w !! EnvName = Some b
        /\ convert_from T (EnvPtr b) (array_at w (EnvPtr b)) = Throw e
        /\ conversion_error T e
        /\ EnvHelper.get EnvName T enabled w = (Throw e, w')
        /\ cerr w' = cerr w ++ conversion_diagnostic EnvName s e).
Proof.
  split.
  - intros Hw. rewrite (get_unset EnvName T enabled w Hw).
    eexists. split; reflexivity.
  - intros Hok s Hraw Hun.
    apply raw_text_inv in Hraw as (b & Hb & Harr).
    destruct (convert_from_unparsable Hok T s (EnvPtr b)
                (array_at w (EnvPtr b)) Hun Harr) as (e & He & Hk).
    exists b, e. rewrite (get_set EnvName T enabled w b Hb). cbv zeta.
    rewrite He, Harr. eexists. repeat split; try assumption; reflexivity.
Qed.

(** C5. [EnvHelperWithDefault::get] never fails: whatever the environment,
    the default, the flag and the state of its static, it returns a value
    and no exception reaches the caller. *)
Theorem with_default_never_fails `{pf : Platform} (EnvName : string)
    (d : DefaultValueType) (enabled : bool) (value : option ExportType)
    (w : World) :
  exists v value' w',
    EnvHelperWithDefault.get EnvName d enabled value w
    = (Return v, value', w').
Proof.
  unfold EnvHelperWithDefault.get. destruct value as [v|]; [eauto|].
  destruct (environ w !! EnvName) as [b|] eqn:Hw.
  - rewrite (lambda_set EnvName d enabled w b Hw). cbv zeta.
    destruct (convert_from _ _ _); eauto.
  - rewrite (lambda_unset EnvName d enabled w Hw). eauto.
Qed.

Lemma mutate_getenv_calls `{Platform} (m : mutation) (w : World) :
  getenv_calls (mutate m w) = getenv_calls w.
Proof. destruct m; reflexivity. Qed.

Lemma mutate_streams `{Platform} (m : mutation) (w : World) :
  cout (mutate m w) = cout w /\ cerr (mutate m w) = cerr w.
Proof. destruct m; split; reflexivity. Qed.

Lemma mutate_memory `{Platform} (m : mutation) (w : World) (b : N) :
  is_Some (memory w !! b) -> memory (mutate m w) !! b = memory w !! b.
Proof.
  intros Hb. destruct m as [name value|name]; simpl; [|reflexivity].
  apply lookup_insert_ne. intros Heq.
  apply (is_fresh (dom (memory w))). rewrite Heq. apply elem_of_dom. exact Hb.
Qed.

Lemma calls_after_initialised `{Platform} (EnvName : string)
    (d : DefaultValueType) (enabled : bool) (script : list mutation)
    (v : ExportType) (w : World) :
  exists w',
    calls_after EnvName d enabled script (Some v) w
    = (repeat (Return v) (length script), Some v, w')
    /\ getenv_calls w' = getenv_calls w
    /\ cout w' = cout w /\ cerr w' = cerr w
    /\ forall b, is_Some (memory w !! b) -> memory w' !! b = memory w !! b.
Proof.
  revert w. induction script as [|m script IH]; intros w; simpl.
  - exists w. auto.
  - destruct (IH (mutate m w)) as (w' & -> & H1 & H2 & H3 & H4).
    exists w'. rewrite H1, H2, H3, mutate_getenv_calls.
    destruct (mutate_streams m w) as [-> ->]. repeat split.
    intros b Hb. rewrite H4; rewrite mutate_memory; auto.
Qed.

Lemma convert_from_view `{Platform} (T : Type_) (env : pointer)
    (arr : list byte) (sv : string_view) :
  convert_from T env arr = Return (View sv) -> sv_data sv = env.
Proof.
  unfold convert_from. destruct T; intros Hc;
    try (match type of Hc with
         | outcome_map _ ?r = _ => destruct r; discriminate Hc
         end);
    try discriminate Hc.
  inversion Hc. reflexivity.
Qed.

Lemma first_call `{Platform} (EnvName : string) (d : DefaultValueType)
    (enabled : bool) (w : World) :
  exists v w1,
    EnvHelperWithDefault.get EnvName d enabled None w
    = (Return v, Some v, w1)
    /\ getenv_calls w1 = getenv_calls w ++ [EnvName]
    /\ memory w1 = memory w
    /\ forall sv, v = View sv ->
         (exists b, environ w !! EnvName = Some b /\ sv_data sv = EnvPtr b)
         \/ (exists value, sv_data sv = ParamObj value).
Proof.
  unfold EnvHelperWithDefault.get.
  assert (Hdef : forall sv, DefaultValueType_get d = View sv ->
            exists value, sv_data sv = ParamObj value).
  { intros sv. destruct d as [x|value]; simpl; [discriminate|].
    intros [= <-]. eauto. }
  destruct (environ w !! EnvName) as [b|] eqn:Hw.
  - rewrite (lambda_set EnvName d enabled w b Hw). cbv zeta.
    destruct (convert_from _ _ _) as [r|e] eqn:Hc.
    + eexists _, _. repeat split. intros sv ->. left. exists b.
      split; [reflexivity|]. exact (convert_from_view _ _ _ _ Hc).
    + eexists _, _. repeat split. intros sv Hsv. right. auto.
  - rewrite (lambda_unset EnvName d enabled w Hw).
    eexists _, _. repeat split. intros sv Hsv. right. auto.
Qed.

(** C6. [EnvHelperWithDefault::get] is memoized: the first call returns a
    value [v], having looked the variable up once; from then on, whatever
    the process has become, a call returns [v] and touches nothing; so in
    any run of calls with changes of the environment in between, every
    call returns what the first returned, [getenv] has been called once
    and nothing more has been printed.  When [v] is a view, it is the same
    pointer and length, and (the environment's strings being in memory,
    and [setenv] leaving earlier strings in place) it still denotes the
    same characters. *)
Theorem with_default_memoized `{pf : Platform} (EnvName : string)
    (d : DefaultValueType) (enabled : bool) (w : World) :
  exists v w1,
    EnvHelperWithDefault.get EnvName d enabled None w
    = (Return v, Some v, w1)
    /\ getenv_calls w1 = getenv_calls w ++ [EnvName]
    /\ (forall w2,
          EnvHelperWithDefault.get EnvName d enabled (Some v) w2
          = (Return v, Some v, w2))
    /\ (forall script, exists w2,
          calls_after EnvName d enabled script (Some v) w1
          = (repeat (Return v) (length script), Some v, w2)
          /\ getenv_calls w2 = getenv_calls w ++ [EnvName]
          /\ cout w2 = cout w1 /\ cerr w2 = cerr w1
          /\ (environ_backed w -> content_of w2 v = content_of w1 v)).
Proof.
  destruct (first_call EnvName d enabled w)
    as (v & w1 & Hget & Hcalls & Hmem & Hptr).
  exists v, w1. repeat split; try assumption.
  intros script.
  destruct (calls_after_initialised EnvName d enabled script v w1)
    as (w2 & H & H1 & H2 & H3 & H4).
  exists w2. rewrite H, H1, Hcalls. repeat split; try assumption.
  intros Hwf. destruct v as [x|sv]; [reflexivity|].
  simpl. f_equal. unfold view_chars.
  destruct (Hptr sv eq_refl) as [(b & Hb & Hsv)|(value & Hsv)];
    rewrite Hsv; simpl; [|reflexivity].
  rewrite H4; [reflexivity|]. rewrite Hmem. exact (Hwf EnvName b Hb).
Qed.

(** C7. [EnvHelper::get] keeps nothing between calls: every call looks the
    variable up, and its result is that of the environment at the time of
    the call; when the variable is set to a representation of [v1], read,
    set to a representation of [v2] and read again, the first call yields
    [v1] and the second [v2]. *)
Theorem required_reads_every_call `{pf : Platform} (EnvName : string)
    (T : Type_) (enabled : bool) (w : World) (s1 s2 : list byte)
    (v1 v2 : content) :
  platform_ok pf ->
  represents T (c_str s1) v1 ->
  represents T (c_str s2) v2 ->
  (forall w0,
     getenv_calls (snd (EnvHelper.get EnvName T enabled w0))
     = getenv_calls w0 ++ [EnvName])
  /\ exists r1 w1 r2 w2,
       EnvHelper.get EnvName T enabled (setenv EnvName s1 w) = (Return r1, w1)
       /\ content_of w1 r1 = v1
       /\ EnvHelper.get EnvName T enabled (setenv EnvName s2 w1)
          = (Return r2, w2)
       /\ content_of w2 r2 = v2.
Proof.
  intros Hok H1 H2. split.
  - intros w0. destruct (environ w0 !! EnvName) as [b|] eqn:Hw.
    + rewrite (get_set EnvName T enabled w0 b Hw). cbv zeta.
      destruct (convert_from _ _ _); reflexivity.
    + rewrite (get_unset EnvName T enabled w0 Hw). reflexivity.
  - destruct (required_represents T (c_str s1) v1 EnvName enabled
                (setenv EnvName s1 w) Hok (raw_text_setenv _ _ _) H1)
      as (r1 & w1 & Hr1 & Hv1).
    destruct (required_represents T (c_str s2) v2 EnvName enabled
                (setenv EnvName s2 w1) Hok (raw_text_setenv _ _ _) H2)
      as (r2 & w2 & Hr2 & Hv2).
    exists r1, w1, r2, w2. auto.
Qed.

(** C8. Trailing characters are accepted: when the text of the variable is
    a representation [p] of a value [v] of a numeric type followed by
    [rest] (for an integer type, anything that begins with no digit; for a
    floating type, whatever the platform's conversion leaves unread), both
    resolvers yield [v]: no default is substituted, nothing is thrown and
    nothing reaches the error stream. *)
Theorem numeric_prefix_resolves `{pf : Platform} (T : Type_)
    (p rest : list byte) (v : scalar) (EnvName : string) (enabled : bool)
    (w : World) :
  platform_ok pf ->
  raw_text w EnvName = Some (p ++ rest) ->
  reads T p rest v ->
  (exists w',
     EnvHelper.get EnvName T enabled w = (Return (Scalar v), w')
     /\ cerr w' = cerr w)
  /\ (forall d, ExportType_of d = T ->
      exists w',
        EnvHelperWithDefault.get EnvName d enabled None w
        = (Return (Scalar v), Some (Scalar v), w')
        /\ cerr w' = cerr w).
Proof.
  intros Hok Hraw Hreads.
  apply raw_text_inv in Hraw as (b & Hb & Harr).
  pose proof (convert_from_reads Hok T p rest v (EnvPtr b) _ Hreads Harr)
    as Hconv.
  split.
  - destruct (required_converted EnvName T enabled w b _ Hb Hconv)
      as (w' & Hget & _ & _ & Hcerr).
    eauto.
  - intros d <-.
    destruct (with_default_converted EnvName d enabled w b _ Hb Hconv)
      as (w' & Hget & _ & _ & Hcerr).
    eauto.
Qed.

(** C9. For the text target a present variable resolves, with both
    resolvers, to a view that borrows the environment's own string: its
    pointer is the one [getenv] returned, its length is that of the string
    without the terminator, the characters it denotes are the raw text,
    and the memory has not been written to. *)
Theorem text_target_borrows_raw_text `{pf : Platform} (EnvName : string)
    (enabled : bool) (w : World) (b : N) (s : list byte) :
  environ w !! EnvName = Some b ->
  raw_text w EnvName = Some s ->
  let view := {| sv_data := EnvPtr b; sv_size := length s |} in
  (exists w',
     EnvHelper.get EnvName Tstring_view enabled w = (Return (View view), w')
     /\ view_chars w' view = s /\ memory w' = memory w)
  /\ (forall value : list byte, exists w',
        EnvHelperWithDefault.get EnvName (Default_chars value) enabled None w
        = (Return (View view), Some (View view), w')
        /\ view_chars w' view = s /\ memory w' = memory w).
Proof.
  intros Hb Hraw view.
  apply raw_text_inv in Hraw as (b' & Hb' & Harr).
  assert (b' = b) as -> by congruence.
  assert (Hconv : forall T, T = Tstring_view ->
            convert_from T (EnvPtr b) (array_at w (EnvPtr b))
            = Return (View view)).
  { intros T ->. unfold convert_from, view, strlen. rewrite Harr.
    reflexivity. }
  assert (Hchars : forall w', memory w' = memory w -> view_chars w' view = s).
  { intros w' Hmem. unfold view_chars, view, array_at. simpl.
    rewrite Hmem, <- Harr. apply take_strlen. }
  split.
  - destruct (required_converted EnvName Tstring_view enabled w b _ Hb
                (Hconv _ eq_refl)) as (w' & Hget & _ & Hmem & _).
    eauto.
  - intros value.
    destruct (with_default_converted EnvName (Default_chars value) enabled
                w b _ Hb (Hconv _ eq_refl)) as (w' & Hget & _ & Hmem & _).
    eauto.
Qed.

(** C10. For the [char] and the text targets the conversion of a present
    variable cannot fail.  With [char] both resolvers yield the first byte
    of the raw text, and NUL when the text is empty; with the text target
    they yield a view.  So the conversion throws for neither type, the
    [catch] clause is not entered, and [EnvHelper::get] with one of these
    targets throws only the not-set error, on an absent variable. *)
Theorem char_and_text_never_fail `{pf : Platform} (EnvName : string)
    (enabled : bool) (w : World) :
  (forall T env arr e,
     T = Tchar \/ T = Tstring_view -> convert_from T env arr <> Throw e)
  /\ (forall s, raw_text w EnvName = Some s ->
      let c := Scalar (Schar (hd NUL s)) in
      (exists w',
         EnvHelper.get EnvName Tchar enabled w = (Return c, w')
         /\ cerr w' = cerr w)
      /\ (forall c0, exists w',
            EnvHelperWithDefault.get EnvName (Default_scalar (Schar c0))
              enabled None w
            = (Return c, Some c, w')
            /\ cerr w' = cerr w))
  /\ (raw_text w EnvName = Some [] ->
      fst (EnvHelper.get EnvName Tchar enabled w)
      = Return (Scalar (Schar NUL))
      /\ forall c0,
           fst (fst (EnvHelperWithDefault.get EnvName
                       (Default_scalar (Schar c0)) enabled None w))
           = Return (Scalar (Schar NUL)))
  /\ (forall s, raw_text w EnvName = Some s ->
      (exists sv w',
         EnvHelper.get EnvName Tstring_view enabled w = (Return (View sv), w')
         /\ cerr w' = cerr w)
      /\ (forall value, exists sv w',
            EnvHelperWithDefault.get EnvName (Default_chars value)
              enabled None w
            = (Return (View sv), Some (View sv), w')
            /\ cerr w' = cerr w))
  /\ (forall T e w',
        T = Tchar \/ T = Tstring_view ->
        EnvHelper.get EnvName T enabled w = (Throw e, w') ->
        environ w !! EnvName = None
        /\ e = runtime_error (not_set_message EnvName)).
Proof.
  assert (Hnever : forall T env arr e,
            T = Tchar \/ T = Tstring_view ->
            convert_from T env arr <> Throw e).
  { intros T env arr e [-> | ->]; discriminate. }
  assert (Hchar : forall s, raw_text w EnvName = Some s ->
            exists b, environ w !! EnvName = Some b
              /\ forall T, T = Tchar ->
                   convert_from T (EnvPtr b) (array_at w (EnvPtr b))
                   = Return (Scalar (Schar (hd NUL s)))).
  { intros s Hraw. apply raw_text_inv in Hraw as (b & Hb & Harr).
    exists b. split; [exact Hb|]. intros T ->. unfold convert_from.
    rewrite first_char_c_str, Harr. reflexivity. }
  split; [exact Hnever|]. split; [|split; [|split]].
  - intros s Hraw c. destruct (Hchar s Hraw) as (b & Hb & Hconv). split.
    + destruct (required_converted EnvName Tchar enabled w b _ Hb
                  (Hconv _ eq_refl)) as (w' & Hget & _ & _ & Hcerr).
      eauto.
    + intros c0.
      destruct (with_default_converted EnvName (Default_scalar (Schar c0))
                  enabled w b _ Hb (Hconv _ eq_refl))
        as (w' & Hget & _ & _ & Hcerr).
      eauto.
  - intros Hraw. destruct (Hchar [] Hraw) as (b & Hb & Hconv). split.
    + destruct (required_converted EnvName Tchar enabled w b _ Hb
                  (Hconv _ eq_refl)) as (w' & -> & _).
      reflexivity.
    + intros c0.
      destruct (with_default_converted EnvName (Default_scalar (Schar c0))
                  enabled w b _ Hb (Hconv _ eq_refl)) as (w' & -> & _).
      reflexivity.
  - intros s Hraw. apply raw_text_inv in Hraw as (b & Hb & Harr). split.
    + destruct (required_converted EnvName Tstring_view enabled w b _ Hb
                  eq_refl) as (w' & Hget & _ & _ & Hcerr).
      eauto.
    + intros value.
      destruct (with_default_converted EnvName (Default_chars value)
                  enabled w b _ Hb eq_refl) as (w' & Hget & _ & _ & Hcerr).
      eauto.
  - intros T e w' HT Hget.
    destruct (environ w !! EnvName) as [b|] eqn:Hw.
    + rewrite (get_set EnvName T enabled w b Hw) in Hget. cbv zeta in Hget.
      destruct (convert_from T (EnvPtr b) (array_at w (EnvPtr b))) eqn:Hc.
      * discriminate.
      * exfalso. exact (Hnever _ _ _ _ HT Hc).
    + rewrite (get_unset EnvName T enabled w Hw) in Hget.
      inversion Hget. auto.
Qed.

(** ** Further properties of the header *)

Lemma FixedString_view_value (uninit str : list byte) :
  length uninit = length str ->
  FixedString.value (FixedString.construct uninit str) = str.
Proof.
  intros Hlen. unfold FixedString.construct. simpl.
  rewrite (copy_chars_spec str (length str) 0 uninit);
    [|exact Hlen|simpl; lia|reflexivity].
  simpl. rewrite firstn_all, drop_ge, app_nil_r; [reflexivity|lia].
Qed.

(** X1. The copy loop of the two array constructors: after [n] iterations the
    first [n] elements are those of the source and the others are as they
    were; after all [N] the array is the source, whatever it held. *)
Theorem copy_loop_invariant (str buf : list byte) (n : nat) :
  length buf = length str ->
  (n <= length str)%nat ->
  copy_chars str 0 n buf = take n str ++ drop n buf
  /\ copy_chars str 0 (length str) buf = str.
Proof.
  intros Hlen Hn. split.
  - apply (copy_chars_spec str n 0 buf); [exact Hlen|lia|reflexivity].
  - rewrite (copy_chars_spec str (length str) 0 buf);
      [|exact Hlen|simpl; lia|reflexivity].
    simpl. rewrite firstn_all, drop_ge, app_nil_r; [reflexivity|lia].
Qed.

(** X2. [FixedString]: the constructor stores the array it is given, and the
    conversion to [std::string_view] is a view of [N - 1] characters, the
    array without its last element. *)
Theorem FixedString_view `{pf : Platform} (w : World)
    (uninit init : list byte) (last : byte) :
  let str := init ++ [last] in
  length uninit = length str ->
  let fs := FixedString.construct uninit str in
  FixedString.value fs = str
  /\ FixedString.to_string_view fs
     = {| sv_data := ParamObj str; sv_size := length init |}
  /\ view_chars w (FixedString.to_string_view fs) = init.
Proof.
  intros str Hlen fs.
  assert (Hv : FixedString.value fs = str)
    by exact (FixedString_view_value uninit str Hlen).
  unfold FixedString.to_string_view. rewrite Hv.
  assert (Hsize : (length str - 1)%nat = length init).
  { unfold str. rewrite length_app. simpl. lia. }
  rewrite Hsize. repeat split.
  unfold view_chars. simpl. unfold str.
  apply take_app_length.
Qed.

(** X3. For a literal without NUL inside, the name [getenv] is given (the C
    string of [value]) is the literal, the same characters as the view. *)
Theorem FixedString_name_of_literal (uninit lit : list byte) :
  forallb (fun c => negb (is_nul c)) lit = true ->
  length uninit = S (length lit) ->
  let fs := FixedString.construct uninit (lit ++ [NUL]) in
  FixedString.c_string fs = lit
  /\ FixedString.name fs = string_of_list_byte lit
  /\ sv_size (FixedString.to_string_view fs) = length (FixedString.c_string fs).
Proof.
  intros Hlit Hlen fs.
  assert (Hlen' : length uninit = length (lit ++ [NUL]))
    by (rewrite length_app; simpl; lia).
  pose proof (FixedString_view_value uninit (lit ++ [NUL]) Hlen') as Hv.
  assert (Hc : FixedString.c_string fs = lit).
  { unfold FixedString.c_string, fs. rewrite Hv.
    apply c_str_terminated. exact Hlit. }
  unfold FixedString.name. rewrite Hc. repeat split.
  unfold FixedString.to_string_view, fs. rewrite Hv. simpl.
  rewrite length_app. simpl. lia.
Qed.

(** X4. With a NUL inside the array the two disagree: the name looked up stops
    at the first NUL, the view keeps all but the last element. *)
Theorem FixedString_embedded_nul `{pf : Platform} (w : World)
    (uninit a b : list byte) (last : byte) :
  forallb (fun c => negb (is_nul c)) a = true ->
  let str := a ++ NUL :: b ++ [last] in
  length uninit = length str ->
  let fs := FixedString.construct uninit str in
  FixedString.c_string fs = a
  /\ sv_size (FixedString.to_string_view fs) = S (length a + length b)
  /\ view_chars w (FixedString.to_string_view fs) = a ++ NUL :: b.
Proof.
  intros Ha str Hlen fs.
  pose proof (FixedString_view_value uninit str Hlen) as Hv.
  unfold FixedString.c_string, FixedString.to_string_view. fold fs.
  unfold fs. rewrite Hv. split; [|split].
  - unfold str. apply c_str_terminated. exact Ha.
  - simpl. unfold str. rewrite length_app. simpl. rewrite length_app.
    simpl. lia.
  - unfold view_chars. simpl.
    replace (length str - 1)%nat with (length (a ++ NUL :: b)).
    + unfold str.
      replace (a ++ NUL :: b ++ [last]) with ((a ++ NUL :: b) ++ [last])
        by (rewrite <- app_assoc; reflexivity).
      apply take_app_length.
    + unfold str. rewrite !length_app. simpl. rewrite length_app. simpl. lia.
Qed.

(** ** Further properties of the two [get]s *)

Lemma required_world `{Platform} (EnvName : string) (T : Type_)
    (enabled : bool) (w : World) :
  let w' := snd (EnvHelper.get EnvName T enabled w) in
  environ w' = environ w /\ memory w' = memory w
  /\ getenv_calls w' = getenv_calls w ++ [EnvName].
Proof.
  destruct (environ w !! EnvName) as [b|] eqn:Hw.
  - rewrite (get_set EnvName T enabled w b Hw). cbv zeta.
    destruct (convert_from _ _ _); repeat split.
  - rewrite (get_unset EnvName T enabled w Hw). repeat split.
Qed.

Lemma lambda_world `{Platform} (EnvName : string) (d : DefaultValueType)
    (enabled : bool) (w : World) :
  let w' := snd (EnvHelperWithDefault.lambda EnvName d enabled w) in
  environ w' = environ w /\ memory w' = memory w
  /\ getenv_calls w' = getenv_calls w ++ [EnvName].
Proof.
  destruct (environ w !! EnvName) as [b|] eqn:Hw.
  - rewrite (lambda_set EnvName d enabled w b Hw). cbv zeta.
    destruct (convert_from _ _ _); repeat split.
  - rewrite (lambda_unset EnvName d enabled w Hw). repeat split.
Qed.

Lemma lambda_returns `{Platform} (EnvName : string) (d : DefaultValueType)
    (enabled : bool) (w : World) :
  exists v, fst (EnvHelperWithDefault.lambda EnvName d enabled w) = Return v.
Proof.
  destruct (environ w !! EnvName) as [b|] eqn:Hw.
  - rewrite (lambda_set EnvName d enabled w b Hw). cbv zeta.
    destruct (convert_from _ _ _); simpl; eauto.
  - rewrite (lambda_unset EnvName d enabled w Hw). simpl. eauto.
Qed.

Lemma with_default_unfold `{Platform} (EnvName : string)
    (d : DefaultValueType) (enabled : bool) (w : World) :
  exists v,
    EnvHelperWithDefault.lambda EnvName d enabled w
    = (Return v, snd (EnvHelperWithDefault.lambda EnvName d enabled w))
    /\ EnvHelperWithDefault.get EnvName d enabled None w
       = (Return v, Some v,
          snd (EnvHelperWithDefault.lambda EnvName d enabled w)).
Proof.
  destruct (lambda_returns EnvName d enabled w) as [v Hv].
  exists v. unfold EnvHelperWithDefault.get.
  destruct (EnvHelperWithDefault.lambda EnvName d enabled w) as [r w'].
  simpl in *. subst r. split; reflexivity.
Qed.

Lemma convert_from_type `{Platform} (T : Type_) (env : pointer)
    (arr : list byte) (r : ExportType) :
  convert_from T env arr = Return r -> type_of r = T.
Proof.
  unfold convert_from. destruct T; intros Hc;
    try (match type of Hc with
         | outcome_map _ ?o = _ => destruct o; inversion Hc; reflexivity
         end);
    inversion Hc; reflexivity.
Qed.

Lemma default_type `{Platform} (d : DefaultValueType) :
  type_of (DefaultValueType_get d) = ExportType_of d.
Proof. destruct d; reflexivity. Qed.

Lemma app_not_self {A : Type} (l k : list A) : l ++ k = l -> k = [].
Proof.
  intros Heq. apply (app_inv_head l). rewrite app_nil_r. exact Heq.
Qed.

(** X5. Neither [get] writes to the environment or to memory, whatever the
    state of the static; a call of [EnvHelper::get] looks the variable up
    once. *)
Theorem resolvers_leave_environment `{pf : Platform} (EnvName : string)
    (T : Type_) (d : DefaultValueType) (enabled : bool)
    (value : option ExportType) (w : World) :
  let w1 := snd (EnvHelper.get EnvName T enabled w) in
  let w2 := snd (EnvHelperWithDefault.get EnvName d enabled value w) in
  environ w1 = environ w /\ memory w1 = memory w
  /\ getenv_calls w1 = getenv_calls w ++ [EnvName]
  /\ environ w2 = environ w /\ memory w2 = memory w.
Proof.
  cbv zeta.
  destruct (required_world EnvName T enabled w) as (H1 & H2 & H3).
  repeat split; try assumption.
  - destruct value as [v|]; [reflexivity|].
    destruct (with_default_unfold EnvName d enabled w) as (v & _ & ->).
    apply lambda_world.
  - destruct value as [v|]; [reflexivity|].
    destruct (with_default_unfold EnvName d enabled w) as (v & _ & ->).
    apply lambda_world.
Qed.


(** X7. The first call of [EnvHelperWithDefault::get] returns what
    [EnvHelper::get] returns for the export type of the default, and the
    default where that one throws. *)
Theorem with_default_is_required_or_default `{pf : Platform}
    (EnvName : string) (d : DefaultValueType) (enabled : bool) (w : World) :
  fst (fst (EnvHelperWithDefault.get EnvName d enabled None w))
  = match fst (EnvHelper.get EnvName (ExportType_of d) enabled w) with
    | Return v => Return v
    | Throw _ => Return (DefaultValueType_get d)
    end.
Proof.
  unfold EnvHelperWithDefault.get.
  destruct (environ w !! EnvName) as [b|] eqn:Hw.
  - rewrite (get_set EnvName _ enabled w b Hw),
      (lambda_set EnvName d enabled w b Hw).
    cbv zeta. destruct (convert_from _ _ _); reflexivity.
  - rewrite (get_unset EnvName _ enabled w Hw),
      (lambda_unset EnvName d enabled w Hw).
    reflexivity.
Qed.

(** X8. On a present variable the two [get]s fail on the unparsable texts and
    on no other: [EnvHelper::get] throws exactly when the text is
    unparsable, and [EnvHelperWithDefault::get] leaves [std::cerr] alone
    exactly when it is not. *)
Theorem failure_iff_unparsable `{pf : Platform} (EnvName : string)
    (T : Type_) (d : DefaultValueType) (enabled : bool) (w : World)
    (s : list byte) :
  platform_ok pf ->
  raw_text w EnvName = Some s ->
  ((exists e, fst (EnvHelper.get EnvName T enabled w) = Throw e)
   <-> unparsable T s)
  /\ (cerr (snd (EnvHelperWithDefault.get EnvName d enabled None w)) = cerr w
      <-> ~ unparsable (ExportType_of d) s).
Proof.
  intros Hok Hraw. apply raw_text_inv in Hraw as (b & Hb & Harr).
  unfold EnvHelperWithDefault.get.
  rewrite (get_set EnvName T enabled w b Hb),
    (lambda_set EnvName d enabled w b Hb).
  cbv zeta. rewrite <- Harr. split.
  - rewrite (unparsable_iff_throws Hok T (EnvPtr b)).
    destruct (convert_from T _ _) as [r|e0]; simpl; split; intros [e He];
      eauto; discriminate.
  - rewrite (unparsable_iff_throws Hok (ExportType_of d) (EnvPtr b)).
    destruct (convert_from (ExportType_of d) _ _) as [r|e0]; simpl; split.
    + intros _ [e He]. discriminate.
    + reflexivity.
    + intros Hcerr. apply app_not_self in Hcerr. discriminate.
    + intros Hno. exfalso. apply Hno. eauto.
Qed.

Lemma convert_from_in_range `{pf : Platform} (T : Type_) (lo hi : Z)
    (env : pointer) (arr : list byte) (r : ExportType) :
  platform_ok pf ->
  integer_range T = Some (lo, hi) ->
  convert_from T env arr = Return r ->
  exists v, r = Scalar (integer_value T v) /\ lo <= v <= hi.
Proof.
  intros Hok HT Hc.
  pose proof (integer_range_is_integer T lo hi HT) as Hint.
  rewrite (convert_from_integer T env arr Hint) in Hc.
  destruct (numeral_or_no_number (c_str arr))
    as [Hno|(n & rest & Hs & Hwf & Hrest)].
  - rewrite (integer_sto_no_number T _ Hint Hno) in Hc. discriminate.
  - rewrite Hs, (integer_sto_numeral Hok T lo hi n rest HT Hwf Hrest) in Hc.
    destruct (_ || _) eqn:E in Hc; [discriminate|].
    simpl in Hc. inversion Hc. exists (numeral_value n). split; [reflexivity|].
    lia.
Qed.

(** X9. An integer that a [get] has read from the environment is a value of
    its type: within [INT_MIN..INT_MAX] for [int], and so on; the result
    of [EnvHelperWithDefault::get] is such a value or the default. *)
Theorem integer_result_in_range `{pf : Platform} (EnvName : string)
    (T : Type_) (d : DefaultValueType) (enabled : bool) (w : World)
    (lo hi : Z) :
  platform_ok pf ->
  integer_range T = Some (lo, hi) ->
  ExportType_of d = T ->
  (forall r w',
     EnvHelper.get EnvName T enabled w = (Return r, w') ->
     exists v, r = Scalar (integer_value T v) /\ lo <= v <= hi)
  /\ (forall r value' w',
        EnvHelperWithDefault.get EnvName d enabled None w
        = (Return r, value', w') ->
        r = DefaultValueType_get d
        \/ exists v, r = Scalar (integer_value T v) /\ lo <= v <= hi).
Proof.
  intros Hok HT Hd. split.
  - intros r w' Hget.
    destruct (environ w !! EnvName) as [b|] eqn:Hw.
    + rewrite (get_set EnvName T enabled w b Hw) in Hget. cbv zeta in Hget.
      destruct (convert_from T _ _) as [r0|e] eqn:Hc; [|discriminate].
      inversion Hget. subst r0.
      exact (convert_from_in_range T lo hi _ _ r Hok HT Hc).
    + rewrite (get_unset EnvName T enabled w Hw) in Hget. discriminate.
  - intros r value' w' Hget. unfold EnvHelperWithDefault.get in Hget.
    destruct (environ w !! EnvName) as [b|] eqn:Hw.
    + rewrite (lambda_set EnvName d enabled w b Hw) in Hget.
      cbv zeta in Hget. rewrite Hd in Hget.
      destruct (convert_from T _ _) as [r0|e] eqn:Hc;
        inversion Hget; [|left; reflexivity].
      subst r0. right.
      exact (convert_from_in_range T lo hi _ _ r Hok HT Hc).
    + rewrite (lambda_unset EnvName d enabled w Hw) in Hget.
      inversion Hget. left. reflexivity.
Qed.

(** X10. The value a [get] returns is of the type asked for: [Type] for
    [EnvHelper::get], the export type of the default for
    [EnvHelperWithDefault::get]. *)
Theorem result_has_target_type `{pf : Platform} (EnvName : string)
    (T : Type_) (d : DefaultValueType) (enabled : bool) (w : World) :
  (forall r w',
     EnvHelper.get EnvName T enabled w = (Return r, w') -> type_of r = T)
  /\ (forall r value' w',
        EnvHelperWithDefault.get EnvName d enabled None w
        = (Return r, value', w') ->
        type_of r = ExportType_of d).
Proof.
  split.
  - intros r w' Hget.
    destruct (environ w !! EnvName) as [b|] eqn:Hw.
    + rewrite (get_set EnvName T enabled w b Hw) in Hget. cbv zeta in Hget.
      destruct (convert_from T _ _) as [r0|e] eqn:Hc; [|discriminate].
      inversion Hget. subst r0. exact (convert_from_type _ _ _ _ Hc).
    + rewrite (get_unset EnvName T enabled w Hw) in Hget. discriminate.
  - intros r value' w' Hget. unfold EnvHelperWithDefault.get in Hget.
    destruct (environ w !! EnvName) as [b|] eqn:Hw.
    + rewrite (lambda_set EnvName d enabled w b Hw) in Hget.
      cbv zeta in Hget.
      destruct (convert_from _ _ _) as [r0|e] eqn:Hc; inversion Hget.
      * subst r0. exact (convert_from_type _ _ _ _ Hc).
      * apply default_type.
    + rewrite (lambda_unset EnvName d enabled w Hw) in Hget.
      inversion Hget. apply default_type.
Qed.

Lemma required_environment_only `{Platform} (EnvName : string) (T : Type_)
    (enabled : bool) (w1 w2 : World) :
  environ w1 = environ w2 -> memory w1 = memory w2 ->
  fst (EnvHelper.get EnvName T enabled w1)
  = fst (EnvHelper.get EnvName T enabled w2).
Proof.
  intros Henv Hmem.
  destruct (environ w1 !! EnvName) as [b|] eqn:Hw.
  - rewrite (get_set EnvName T enabled w1 b Hw).
    rewrite Henv in Hw. rewrite (get_set EnvName T enabled w2 b Hw).
    cbv zeta. unfold array_at. rewrite Hmem.
    destruct (convert_from _ _ _); reflexivity.
  - rewrite (get_unset EnvName T enabled w1 Hw).
    rewrite Henv in Hw. rewrite (get_unset EnvName T enabled w2 Hw).
    reflexivity.
Qed.

(** X11. What [EnvHelper::get] returns or throws depends on the environment
    and its memory alone, not on what has been printed or looked up
    before; so a second call right after the first returns or throws the
    same, having looked the variable up again. *)
Theorem required_depends_on_environment_only `{pf : Platform}
    (EnvName : string) (T : Type_) (enabled : bool) (w1 w2 : World) :
  environ w1 = environ w2 ->
  memory w1 = memory w2 ->
  fst (EnvHelper.get EnvName T enabled w1)
  = fst (EnvHelper.get EnvName T enabled w2)
  /\ fst (EnvHelper.get EnvName T enabled
            (snd (EnvHelper.get EnvName T enabled w1)))
     = fst (EnvHelper.get EnvName T enabled w1)
  /\ getenv_calls (snd (EnvHelper.get EnvName T enabled
                          (snd (EnvHelper.get EnvName T enabled w1))))
     = getenv_calls w1 ++ [EnvName; EnvName].
Proof.
  intros Henv Hmem. split; [|split].
  - apply required_environment_only; assumption.
  - destruct (required_world EnvName T enabled w1) as (H1 & H2 & _).
    apply required_environment_only; assumption.
  - destruct (required_world EnvName T enabled w1) as (_ & _ & H3).
    destruct (required_world EnvName T enabled
                (snd (EnvHelper.get EnvName T enabled w1))) as (_ & _ & H4).
    cbv zeta in H3, H4. rewrite H4, H3, <- app_assoc. reflexivity.
Qed.

(** X12. The view that the text target returns is on the environment's own
    array: when that array is written to afterwards, the memoized result
    is still the same pointer and length, and the characters it denotes
    are those now in the array. *)
Theorem memoized_view_aliases_environment `{pf : Platform}
    (EnvName : string) (value : list byte) (enabled : bool) (w : World)
    (b : N) (arr' : list byte) :
  environ w !! EnvName = Some b ->
  let d := Default_chars value in
  let sv := {| sv_data := EnvPtr b;
               sv_size := strlen (array_at w (EnvPtr b)) |} in
  exists w1,
    EnvHelperWithDefault.get EnvName d enabled None w
    = (Return (View sv), Some (View sv), w1)
    /\ view_chars w1 sv = c_str (array_at w (EnvPtr b))
    /\ let w2 := overwrite b arr' w1 in
       EnvHelperWithDefault.get EnvName d enabled (Some (View sv)) w2
       = (Return (View sv), Some (View sv), w2)
       /\ view_chars w2 sv = take (sv_size sv) arr'.
Proof.
  intros Hb d sv.
  destruct (with_default_converted EnvName d enabled w b (View sv) Hb
              eq_refl) as (w1 & Hget & _ & Hmem & _).
  exists w1. split; [exact Hget|]. split.
  - unfold view_chars, sv, array_at. simpl. rewrite Hmem. apply take_strlen.
  - cbv zeta. split; [reflexivity|].
    unfold view_chars, sv, overwrite, array_at. simpl.
    rewrite lookup_insert_eq. reflexivity.
Qed.

Lemma decimal_zeros (k : nat) (ds : list byte) :
  decimal (replicate k x30 ++ ds) = decimal ds.
Proof.
  unfold decimal. rewrite fold_left_app. f_equal.
  induction k as [|k IH]; simpl; [reflexivity|]. exact IH.
Qed.

Lemma with_zeros_well_formed (k : nat) (n : numeral) :
  well_formed n = true -> well_formed (with_zeros k n) = true.
Proof.
  intros Hwf. destruct (well_formed_inv n Hwf) as (Hs & Hd & d & ds & E & _).
  unfold well_formed, with_zeros. simpl.
  rewrite Hs, forallb_app, Hd, length_app, E. simpl.
  assert (Hz : forallb isdigit (replicate k x30) = true)
    by (induction k; simpl; auto).
  rewrite Hz. simpl. apply negb_true_iff, Nat.eqb_neq. lia.
Qed.

(** X14. Integer texts are read in base 10 whatever they begin with: zeros
    before the digits do not change the value (no octal). *)
Theorem leading_zeros_are_decimal `{pf : Platform} (T : Type_) (lo hi : Z)
    (n : numeral) (k : nat) (rest : list byte) (EnvName : string)
    (d : DefaultValueType) (enabled : bool) (w : World) :
  platform_ok pf ->
  integer_range T = Some (lo, hi) ->
  well_formed n = true ->
  begins_with_digit rest = false ->
  lo <= numeral_value n <= hi ->
  raw_text w EnvName = Some (numeral_text (with_zeros k n) ++ rest) ->
  ExportType_of d = T ->
  fst (EnvHelper.get EnvName T enabled w)
  = Return (Scalar (integer_value T (numeral_value n)))
  /\ fst (fst (EnvHelperWithDefault.get EnvName d enabled None w))
     = Return (Scalar (integer_value T (numeral_value n))).
Proof.
  intros Hok HT Hwf Hrest Hv Hraw Hd.
  apply raw_text_inv in Hraw as (b & Hb & Harr).
  assert (Hval : numeral_value (with_zeros k n) = numeral_value n).
  { unfold numeral_value, with_zeros. simpl. rewrite decimal_zeros.
    reflexivity. }
  assert (Hreads : reads T (numeral_text (with_zeros k n)) rest
                     (integer_value T (numeral_value n))).
  { rewrite <- Hval.
    apply (reads_integer T lo hi); try assumption.
    - apply with_zeros_well_formed. exact Hwf.
    - rewrite Hval. exact Hv. }
  pose proof (convert_from_reads Hok T _ rest _ (EnvPtr b) _ Hreads Harr)
    as Hconv.
  split.
  - destruct (required_converted EnvName T enabled w b _ Hb Hconv)
      as (w' & -> & _).
    reflexivity.
  - subst T.
    destruct (with_default_converted EnvName d enabled w b _ Hb Hconv)
      as (w' & -> & _).
    reflexivity.
Qed.

(** X13. Which exception [EnvHelper::get] throws for an integer target: on a
    text without a number, [std::invalid_argument]; on a numeral outside
    the type, [std::out_of_range]; [EnvHelperWithDefault::get] reports the
    same one on [std::cerr]. *)
Theorem integer_exception_kinds `{pf : Platform} (EnvName : string)
    (T : Type_) (lo hi : Z) (d : DefaultValueType) (enabled : bool)
    (w : World) (s : list byte) :
  platform_ok pf ->
  integer_range T = Some (lo, hi) ->
  ExportType_of d = T ->
  raw_text w EnvName = Some s ->
  (no_number s = true ->
   fst (EnvHelper.get EnvName T enabled w)
   = Throw (invalid_argument (sto_name T))
   /\ cerr (snd (EnvHelperWithDefault.get EnvName d enabled None w))
      = cerr w ++ fallback_diagnostic EnvName s d
                    (invalid_argument (sto_name T)))
  /\ (forall n rest,
        s = numeral_text n ++ rest ->
        well_formed n = true ->
        begins_with_digit rest = false ->
        numeral_value n < lo \/ hi < numeral_value n ->
        fst (EnvHelper.get EnvName T enabled w)
        = Throw (out_of_range (sto_name T))
        /\ cerr (snd (EnvHelperWithDefault.get EnvName d enabled None w))
           = cerr w ++ fallback_diagnostic EnvName s d
                         (out_of_range (sto_name T))).
Proof.
  intros Hok HT Hd Hraw.
  apply raw_text_inv in Hraw as (b & Hb & Harr).
  pose proof (integer_range_is_integer T lo hi HT) as Hint.
  assert (Hthrow : forall e,
            integer_sto T s = Throw e ->
            fst (EnvHelper.get EnvName T enabled w) = Throw e
            /\ cerr (snd (EnvHelperWithDefault.get EnvName d enabled None w))
               = cerr w ++ fallback_diagnostic EnvName s d e).
  { intros e He.
    assert (Hc : convert_from T (EnvPtr b) (array_at w (EnvPtr b)) = Throw e).
    { rewrite (convert_from_integer T _ _ Hint), Harr, He. reflexivity. }
    unfold EnvHelperWithDefault.get.
    rewrite (get_set EnvName T enabled w b Hb),
      (lambda_set EnvName d enabled w b Hb).
    cbv zeta. rewrite Hd, Hc, Harr.
    split; [reflexivity|]. simpl. destruct enabled; reflexivity. }
  split.
  - intros Hno. apply Hthrow. apply integer_sto_no_number; assumption.
  - intros n rest Hs Hwf Hrest Hv. apply Hthrow.
    rewrite Hs, (integer_sto_numeral Hok T lo hi n rest HT Hwf Hrest).
    replace ((numeral_value n <? lo) || (hi <? numeral_value n))
      with true by (symmetry; apply orb_true_iff; lia).
    reflexivity.
Qed.

(** ** [main] *)

Lemma first_use_silent `{Platform} (EnvName : string) (d : DefaultValueType)
    (w : World) :
  exists v w',
    first_use EnvName d false w = (Return v, w')
    /\ environ w' = environ w /\ memory w' = memory w
    /\ cout w' = cout w
    /\ getenv_calls w' = getenv_calls w ++ [EnvName]
    /\ type_of v = ExportType_of d
    /\ (environ w !! EnvName = None ->
        v = DefaultValueType_get d /\ cerr w' = cerr w)
    /\ (forall b r,
          environ w !! EnvName = Some b ->
          convert_from (ExportType_of d) (EnvPtr b) (array_at w (EnvPtr b))
          = Return r ->
          v = r /\ cerr w' = cerr w).
Proof.
  unfold first_use, EnvHelperWithDefault.get.
  destruct (environ w !! EnvName) as [b|] eqn:Hw.
  - rewrite (lambda_set EnvName d false w b Hw). cbv zeta.
    destruct (convert_from _ _ _) as [r|e] eqn:Hc; eexists _, _;
      (split; [reflexivity|]); simpl; rewrite ?app_nil_r;
      (split; [reflexivity|]); (split; [reflexivity|]);
      (split; [reflexivity|]); (split; [reflexivity|]).
    + split; [exact (convert_from_type _ _ _ _ Hc)|].
      split; [discriminate|].
      intros b' r' Hb' Hr'. inversion Hb'. subst b'.
      assert (Heq : Return r' = Return r)
        by (etransitivity; [symmetry; exact Hr'|exact Hc]).
      inversion Heq. auto.
    + split; [apply default_type|]. split; [discriminate|].
      intros b' r' Hb' Hr'. inversion Hb'. subst b'.
      assert (Heq : Return r' = Throw e)
        by (etransitivity; [symmetry; exact Hr'|exact Hc]).
      discriminate.
  - rewrite (lambda_unset EnvName d false w Hw).
    eexists _, _. split; [reflexivity|]. simpl. rewrite ?app_nil_r.
    repeat (split; [reflexivity|]).
    split; [apply default_type|]. split; [auto|]. intros; discriminate.
Qed.

Lemma main_names :
  FixedString.name
    (FixedString.construct (replicate 5 NUL) (bytes "PATH" ++ [NUL]))
  = "PATH"
  /\ FixedString.name
       (FixedString.construct (replicate 6 NUL) (bytes "PATH2" ++ [NUL]))
     = "PATH2".
Proof. split; reflexivity. Qed.

(** The four calls of [main] taken one after the other, each with what
    [first_use_silent] says of it, and [main] as their sequence. *)
Ltac main_calls literal w :=
  let d1 := constr:(DefaultValueType_of_array (bytes "teee" ++ [NUL])) in
  let d2 := constr:(DefaultValueType_of_value (Schar x61)) in
  let d3 := constr:(DefaultValueType_of_value (Sdouble literal)) in
  let d4 := constr:(DefaultValueType_of_value (Sint 123)) in
  destruct (first_use_silent "PATH" d1 w)
    as (v1 & w1 & H1 & E1 & M1 & C1 & G1 & T1 & A1 & P1);
  destruct (first_use_silent "PATH" d2 (put_cout [Exported v1; Endl] w1))
    as (v2 & w2 & H2 & E2 & M2 & C2 & G2 & T2 & A2 & P2);
  destruct (first_use_silent "PATH" d3 (put_cout [Exported v2; Endl] w2))
    as (v3 & w3 & H3 & E3 & M3 & C3 & G3 & T3 & A3 & P3);
  destruct (first_use_silent "PATH2" d4 (put_cout [Exported v3; Endl] w3))
    as (v4 & w4 & H4 & E4 & M4 & C4 & G4 & T4 & A4 & P4);
  assert (Hmain : main literal w
                  = (Return 0, put_cout [Exported v4; Endl] w4))
    by (unfold main; destruct main_names as [-> ->]; cbv zeta;
        unfold mbind, M_bind, cout_insert; rewrite H1, H2, H3, H4;
        reflexivity);
  simpl in E2, E3, E4, M2, M3, M4, C2, C3, C4, G2, G3, G4, A2, A3, A4.

(** X15. [main] never ends by an exception: in every environment it returns 0,
    having looked up [PATH] three times and [PATH2] once, in that order,
    and printed four values, each followed by [std::endl]: a view, a
    [char], a [double] and an [int]; the environment is as it was. *)
Theorem main_returns_zero `{pf : Platform} (literal_123_4 : double_t)
    (w : World) :
  exists v1 v2 v3 v4 w',
    main literal_123_4 w = (Return 0, w')
    /\ cout w' = cout w ++ [Exported v1; Endl; Exported v2; Endl;
                            Exported v3; Endl; Exported v4; Endl]
    /\ (type_of v1 = Tstring_view /\ type_of v2 = Tchar
        /\ type_of v3 = Tdouble /\ type_of v4 = Tint)
    /\ getenv_calls w' = getenv_calls w ++ ["PATH"; "PATH"; "PATH"; "PATH2"]
    /\ environ w' = environ w /\ memory w' = memory w.
Proof.
  main_calls literal_123_4 w.
  exists v1, v2, v3, v4, (put_cout [Exported v4; Endl] w4).
  split; [exact Hmain|]. simpl.
  rewrite C4, C3, C2, C1, G4, G3, G2, G1, E4, E3, E2, E1, M4, M3, M2, M1.
  rewrite <- !app_assoc. simpl. auto 10.
Qed.

(** X16. With neither [PATH] nor [PATH2] in the environment, [main] prints the
    four defaults: the text "teee" (a view of 4 characters on the stored
    literal), the character 'a', the [double] 123.4 and the [int] 123;
    nothing goes to [std::cerr]. *)
Theorem main_prints_defaults `{pf : Platform} (literal_123_4 : double_t)
    (w : World) :
  environ w !! "PATH" = None ->
  environ w !! "PATH2" = None ->
  exists w',
    main literal_123_4 w = (Return 0, w')
    /\ cout w' =
       cout w ++
       [Exported (View {| sv_data := ParamObj (bytes "teee" ++ [NUL]);
                          sv_size := 4 |}); Endl;
        Exported (Scalar (Schar x61)); Endl;
        Exported (Scalar (Sdouble literal_123_4)); Endl;
        Exported (Scalar (Sint 123)); Endl]
    /\ cerr w' = cerr w.
Proof.
  intros Hpath Hpath2. main_calls literal_123_4 w.
  rewrite E3, E2, E1 in A4. rewrite E2, E1 in A3. rewrite E1 in A2.
  destruct (A1 Hpath) as [-> R1]. destruct (A2 Hpath) as [-> R2].
  destruct (A3 Hpath) as [-> R3]. destruct (A4 Hpath2) as [-> R4].
  exists (put_cout [Exported (DefaultValueType_get
                               (DefaultValueType_of_value (Sint 123)));
                    Endl] w4).
  split; [exact Hmain|]. simpl.
  rewrite C4, C3, C2, C1, R4, R3, R2, R1.
  rewrite <- !app_assoc. simpl. auto.
Qed.

(** X17. With [PATH] set, the first line [main] prints is a view on the
    environment's string, of its length, and the second is its first
    character (NUL when it is empty), whatever the defaults. *)
Theorem main_prints_PATH `{pf : Platform} (literal_123_4 : double_t)
    (w : World) (b : N) (s : list byte) :
  environ w !! "PATH" = Some b ->
  raw_text w "PATH" = Some s ->
  exists v3 v4 w',
    main literal_123_4 w = (Return 0, w')
    /\ cout w' =
       cout w ++
       [Exported (View {| sv_data := EnvPtr b; sv_size := length s |}); Endl;
        Exported (Scalar (Schar (hd NUL s))); Endl;
        Exported v3; Endl; Exported v4; Endl]
    /\ type_of v3 = Tdouble /\ type_of v4 = Tint.
Proof.
  intros Hb Hraw. apply raw_text_inv in Hraw as (b' & Hb' & Harr).
  assert (b' = b) as -> by congruence.
  main_calls literal_123_4 w.
  destruct (P1 b (View {| sv_data := EnvPtr b; sv_size := length s |}) Hb)
    as [-> _].
  { simpl. unfold strlen. simpl in Harr. rewrite Harr. reflexivity. }
  destruct (P2 b (Scalar (Schar (hd NUL s)))) as [-> _].
  { simpl. rewrite E1. exact Hb. }
  { simpl. rewrite M1. rewrite first_char_c_str. simpl in Harr.
    rewrite Harr. reflexivity. }
  exists v3, v4, (put_cout [Exported v4; Endl] w4).
  split; [exact Hmain|]. simpl.
  rewrite C4, C3, C2, C1. rewrite <- !app_assoc. simpl. auto.
Qed.

(** ** The sample platform *)

Lemma strto_decimal_consumed (s : list byte) :
  (consumed (strto_decimal s) <= length s)%nat.
Proof.
  unfold strto_decimal.
  pose proof (span_length isspace s) as H1.
  destruct (span isspace s) as [ws s1]. simpl in H1.
  pose proof (read_sign_length s1) as H2.
  destruct (read_sign s1) as [[neg sign_len] s2]. simpl in H2.
  pose proof (span_length isdigit s2) as H3.
  destruct (span isdigit s2) as [ip s3]. simpl in H3.
  destruct ip as [|d ip]; simpl; [lia|].
  destruct s3 as [|c s4]; simpl in *; [lia|].
  destruct (Byte.eqb c point); simpl in *; [|lia].
  pose proof (span_length isdigit s4) as H4.
  destruct (span isdigit s4) as [fp s5]. simpl in *.
  destruct fp; simpl in *; lia.
Qed.

Lemma lp64_ok : platform_ok lp64.
Proof.
  split; try exact strto_decimal_consumed. simpl. lia.
Qed.

(** ** The model at work on the sample platform *)

#[local] Existing Instance lp64.

Example stoi_plain : stoi (bytes "123") = Return (123, 3%nat).
Proof. reflexivity. Qed.

Example stoi_trailing : stoi (bytes "123abc") = Return (123, 3%nat).
Proof. reflexivity. Qed.

Example stoi_space_and_sign : stoi (bytes "  -42 ") = Return (-42, 5%nat).
Proof. reflexivity. Qed.

Example stoi_empty : stoi [] = Throw (invalid_argument "stoi").
Proof. reflexivity. Qed.

Example stoi_letters : stoi (bytes "abc") = Throw (invalid_argument "stoi").
Proof. reflexivity. Qed.

Example stoi_lone_sign : stoi (bytes "-") = Throw (invalid_argument "stoi").
Proof. reflexivity. Qed.

Example stoi_least : stoi (bytes "-2147483648") = Return (-2147483648, 11%nat).
Proof. reflexivity. Qed.

Example stoi_too_large : stoi (bytes "2147483648") = Throw (out_of_range "stoi").
Proof. reflexivity. Qed.

Example stol_wider : stol (bytes "2147483648") = Return (2147483648, 10%nat).
Proof. reflexivity. Qed.

Example stol_too_large :
  stol (bytes "9223372036854775808") = Throw (out_of_range "stol").
Proof. reflexivity. Qed.

Example stod_fraction :
  stod (bytes "2.50x")
  = Return ({| mantissa := 250; scale := 2 |}, 4%nat).
Proof. reflexivity. Qed.

Example array_default_is_copied :
  DefaultValueType_of_array (bytes "teee" ++ [NUL])
  = Default_chars (bytes "teee" ++ [NUL]).
Proof. reflexivity. Qed.

Example notice_and_fallback :
  let w := snd (EnvHelperWithDefault.get "PORT"
                  (DefaultValueType_of_value (Sint 42)) true None
                  (port_is "abc")) in
  cout w = [Chars "PORT"; Chars " is set to: "; CString (bytes "abc");
            Chars nl]
  /\ cerr w = [Chars "[EnvHelper] "; Chars "PORT";
               Chars " conversion failed: (env='"; CString (bytes "abc");
               Chars "'), using default value: "; Exported (Scalar (Sint 42));
               Endl; Chars "stoi"; Endl].
Proof. vm_compute. split; reflexivity. Qed.

(** ** The claims on the sample platform *)

Lemma reads_123 (rest : list byte) :
  begins_with_digit rest = false ->
  reads Tint (bytes "123") rest (Sint 123).
Proof.
  intros Hrest.
  apply (reads_integer Tint INT_MIN INT_MAX
           {| spaces := []; sign := NoSign; digits := bytes "123" |} rest);
    [reflexivity|reflexivity|exact Hrest|].
  vm_compute. split; discriminate.
Qed.

(** "123" with the 32-bit integer target yields 123. *)
Lemma valid_text_resolves_witness :
  platform_ok lp64
  /\ raw_text (port_is "123") "PORT" = Some (bytes "123")
  /\ represents Tint (bytes "123") (Number (Sint 123))
  /\ (exists r w',
        EnvHelper.get "PORT" Tint false (port_is "123") = (Return r, w')
        /\ content_of w' r = Number (Sint 123))
  /\ (forall d, ExportType_of d = Tint ->
      exists r w',
        EnvHelperWithDefault.get "PORT" d false None (port_is "123")
        = (Return r, Some r, w')
        /\ content_of w' r = Number (Sint 123)).
Proof.
  assert (H1 : raw_text (port_is "123") "PORT" = Some (bytes "123"))
    by (vm_compute; reflexivity).
  assert (H2 : represents Tint (bytes "123") (Number (Sint 123)))
    by (apply represents_numeric, reads_123; reflexivity).
  split; [exact lp64_ok|]. split; [exact H1|]. split; [exact H2|].
  exact (valid_text_resolves Tint (bytes "123") (Number (Sint 123)) "PORT"
           false (port_is "123") lp64_ok H1 H2).
Defined.

(** [UNSET_VAR] absent, default 42: the result is 42; and the default
    "teee" is exported as a view of length 4 that denotes "teee". *)
Lemma unset_yields_default_witness :
  environ empty_world !! "UNSET_VAR" = None
  /\ (exists w',
        EnvHelperWithDefault.get "UNSET_VAR"
          (DefaultValueType_of_value (Sint 42)) false None empty_world
        = (Return (Scalar (Sint 42)), Some (Scalar (Sint 42)), w')
        /\ cerr w' = [])
  /\ content_of empty_world
       (DefaultValueType_get (DefaultValueType_of_array (bytes "teee" ++ [NUL])))
     = Text (bytes "teee").
Proof.
  assert (H : environ empty_world !! "UNSET_VAR" = None)
    by (vm_compute; reflexivity).
  destruct (unset_yields_default "UNSET_VAR"
              (DefaultValueType_of_value (Sint 42)) false empty_world H)
    as (H1 & H2).
  split; [exact H|]. split; [exact H1|].
  destruct (H2 (bytes "teee") NUL) as (_ & Hget & _ & Hchars).
  cbv zeta in Hget. rewrite Hget. exact (f_equal Text Hchars).
Defined.

Lemma unparsable_abc : unparsable Tint (bytes "abc").
Proof. apply unparsable_malformed; reflexivity. Qed.

(** "abc" for an integer target with default 42: the result is 42. *)
Lemma unparsable_yields_default_witness :
  platform_ok lp64
  /\ raw_text (port_is "abc") "PORT" = Some (bytes "abc")
  /\ unparsable Tint (bytes "abc")
  /\ exists e w',
       EnvHelperWithDefault.get "PORT" (Default_scalar (Sint 42)) false None
         (port_is "abc")
       = (Return (Scalar (Sint 42)), Some (Scalar (Sint 42)), w')
       /\ conversion_error Tint e
       /\ cerr w' =
          fallback_diagnostic "PORT" (bytes "abc") (Default_scalar (Sint 42)) e.
Proof.
  assert (H1 : raw_text (port_is "abc") "PORT" = Some (bytes "abc"))
    by (vm_compute; reflexivity).
  split; [exact lp64_ok|]. split; [exact H1|]. split; [exact unparsable_abc|].
  destruct (unparsable_yields_default "PORT" (Default_scalar (Sint 42)) false
              (port_is "abc") (bytes "abc") lp64_ok H1 unparsable_abc)
    as (e & w' & Hget & He & Hcerr & _).
  exists e, w'. auto.
Defined.

(** [PORT] absent: the not-set error; [PORT] set to "abc": the exception
    of [stoi]. *)
Lemma required_surfaces_failures_witness :
  (exists w',
     EnvHelper.get "PORT" Tint false empty_world
     = (Throw (runtime_error
                 "PORT is not set and no default value is provided."), w'))
  /\ (exists e w',
        EnvHelper.get "PORT" Tint false (port_is "abc") = (Throw e, w')
        /\ conversion_error Tint e
        /\ cerr w' = conversion_diagnostic "PORT" (bytes "abc") e).
Proof.
  destruct (required_surfaces_failures "PORT" Tint false empty_world)
    as [Habsent _].
  destruct (required_surfaces_failures "PORT" Tint false (port_is "abc"))
    as [_ Hbad].
  split.
  - destruct Habsent as (w' & Hget & _); [vm_compute; reflexivity|].
    exists w'. exact Hget.
  - destruct (Hbad lp64_ok (bytes "abc")) as (b & e & w' & _ & _ & He & Hget & Hcerr);
      [vm_compute; reflexivity|exact unparsable_abc|].
    exists e, w'. auto.
Defined.

Lemma represents_digit (c : byte) (v : Z) :
  isdigit c = true -> v = digit_value c ->
  represents Tint (c_str [c]) (Number (Sint v)).
Proof.
  intros Hc ->. simpl. rewrite (isdigit_not_nul c Hc).
  apply represents_numeric.
  apply (reads_integer Tint INT_MIN INT_MAX
           {| spaces := []; sign := NoSign; digits := [c] |} []);
    [reflexivity| |reflexivity|].
  - unfold well_formed. simpl. rewrite Hc. reflexivity.
  - pose proof (digit_value_bounds c Hc).
    unfold numeral_value, decimal, INT_MIN, INT_MAX. simpl. lia.
Qed.

(** [PORT] set to "1" and read with default 42, then set to "2" and
    unset, with a call after each change: 1 every time, one lookup. *)
Lemma with_default_memoized_witness :
  let d := DefaultValueType_of_value (Sint 42) in
  let one := Scalar (Sint 1) in
  exists w1 w2,
    EnvHelperWithDefault.get "PORT" d false None (port_is "1")
    = (Return one, Some one, w1)
    /\ calls_after "PORT" d false [Setenv "PORT" (bytes "2"); Unsetenv "PORT"]
         (Some one) w1
       = ([Return one; Return one], Some one, w2)
    /\ getenv_calls w2 = ["PORT"].
Proof.
  intros d one.
  destruct (with_default_memoized "PORT" d false (port_is "1"))
    as (v & w1 & Hget & _ & _ & Hscript).
  assert (Hv : fst (fst (EnvHelperWithDefault.get "PORT" d false None
                           (port_is "1"))) = Return one)
    by (vm_compute; reflexivity).
  rewrite Hget in Hv. simpl in Hv. inversion Hv. subst v.
  destruct (Hscript [Setenv "PORT" (bytes "2"); Unsetenv "PORT"])
    as (w2 & Hcalls & Hlog & _).
  exists w1, w2. auto.
Defined.

(** [PORT] set to "1", read, set to "2", read again: 1, then 2. *)
Lemma required_reads_every_call_witness :
  exists w1 w2,
    EnvHelper.get "PORT" Tint false (setenv "PORT" (bytes "1") empty_world)
    = (Return (Scalar (Sint 1)), w1)
    /\ EnvHelper.get "PORT" Tint false (setenv "PORT" (bytes "2") w1)
       = (Return (Scalar (Sint 2)), w2).
Proof.
  destruct (required_reads_every_call "PORT" Tint false empty_world
              (bytes "1") (bytes "2") (Number (Sint 1)) (Number (Sint 2))
              lp64_ok
              (represents_digit "1" 1 eq_refl eq_refl)
              (represents_digit "2" 2 eq_refl eq_refl))
    as (_ & r1 & w1 & r2 & w2 & H1 & Hv1 & H2 & Hv2).
  destruct r1 as [x1|sv1]; [|discriminate Hv1].
  destruct r2 as [x2|sv2]; [|discriminate Hv2].
  simpl in Hv1, Hv2. inversion Hv1. inversion Hv2. subst x1 x2.
  exists w1, w2. auto.
Defined.

(** "123abc" with the integer target yields 123, not the default 42. *)
Lemma numeric_prefix_resolves_witness :
  platform_ok lp64
  /\ raw_text (port_is "123abc") "PORT" = Some (bytes "123" ++ bytes "abc")
  /\ reads Tint (bytes "123") (bytes "abc") (Sint 123)
  /\ (exists w',
        EnvHelper.get "PORT" Tint false (port_is "123abc")
        = (Return (Scalar (Sint 123)), w')
        /\ cerr w' = [])
  /\ (exists w',
        EnvHelperWithDefault.get "PORT" (Default_scalar (Sint 42)) false None
          (port_is "123abc")
        = (Return (Scalar (Sint 123)), Some (Scalar (Sint 123)), w')
        /\ cerr w' = []).
Proof.
  assert (H1 : raw_text (port_is "123abc") "PORT"
               = Some (bytes "123" ++ bytes "abc"))
    by (vm_compute; reflexivity).
  assert (H2 : reads Tint (bytes "123") (bytes "abc") (Sint 123))
    by (apply reads_123; reflexivity).
  destruct (numeric_prefix_resolves Tint (bytes "123") (bytes "abc")
              (Sint 123) "PORT" false (port_is "123abc") lp64_ok H1 H2)
    as [Hreq Hdef].
  split; [exact lp64_ok|]. split; [exact H1|]. split; [exact H2|].
  split; [exact Hreq|]. exact (Hdef (Default_scalar (Sint 42)) eq_refl).
Defined.

(** [PORT] set to "8080 tcp" with the text target: a view of 8 characters
    on the environment's block, denoting "8080 tcp". *)
Lemma text_target_borrows_raw_text_witness :
  environ (port_is "8080 tcp") !! "PORT" = Some 0%N
  /\ raw_text (port_is "8080 tcp") "PORT" = Some (bytes "8080 tcp")
  /\ exists w',
       EnvHelper.get "PORT" Tstring_view false (port_is "8080 tcp")
       = (Return (View {| sv_data := EnvPtr 0; sv_size := 8 |}), w')
       /\ view_chars w' {| sv_data := EnvPtr 0; sv_size := 8 |}
          = bytes "8080 tcp".
Proof.
  assert (H1 : environ (port_is "8080 tcp") !! "PORT" = Some 0%N)
    by (vm_compute; reflexivity).
  assert (H2 : raw_text (port_is "8080 tcp") "PORT" = Some (bytes "8080 tcp"))
    by (vm_compute; reflexivity).
  destruct (text_target_borrows_raw_text "PORT" false (port_is "8080 tcp")
              0%N (bytes "8080 tcp") H1 H2) as [(w' & Hget & Hchars & _) _].
  split; [exact H1|]. split; [exact H2|]. exists w'. auto.
Defined.

(** [PORT] set to the empty string with the [char] target: NUL, with both
    resolvers, whatever the default. *)
Lemma char_and_text_never_fail_witness :
  raw_text (port_is "") "PORT" = Some []
  /\ fst (EnvHelper.get "PORT" Tchar false (port_is ""))
     = Return (Scalar (Schar NUL))
  /\ fst (fst (EnvHelperWithDefault.get "PORT" (Default_scalar (Schar x61))
                 false None (port_is "")))
     = Return (Scalar (Schar NUL)).
Proof.
  assert (H1 : raw_text (port_is "") "PORT" = Some [])
    by (vm_compute; reflexivity).
  destruct (char_and_text_never_fail "PORT" false (port_is ""))
    as (_ & _ & Hempty & _).
  destruct (Hempty H1) as [Hreq Hdef].
  split; [exact H1|]. split; [exact Hreq|]. exact (Hdef x61).
Defined.

(** ** The further properties on the sample platform *)

(** The copy of "PATH" into a zeroed array: after two iterations "PA" and
    three zeros, after five the literal. *)
Lemma copy_loop_invariant_witness :
  copy_chars (bytes "PATH" ++ [NUL]) 0 2 (replicate 5 NUL)
  = bytes "PA" ++ [NUL; NUL; NUL]
  /\ copy_chars (bytes "PATH" ++ [NUL]) 0 5 (replicate 5 NUL)
     = bytes "PATH" ++ [NUL].
Proof.
  exact (copy_loop_invariant (bytes "PATH" ++ [NUL]) (replicate 5 NUL) 2
           eq_refl ltac:(simpl; lia)).
Defined.

(** [FixedString("PATH")] built over five other characters. *)
Lemma FixedString_view_witness :
  let fs := FixedString.construct (bytes "?????") (bytes "PATH" ++ [NUL]) in
  FixedString.value fs = bytes "PATH" ++ [NUL]
  /\ FixedString.to_string_view fs
     = {| sv_data := ParamObj (bytes "PATH" ++ [NUL]); sv_size := 4 |}
  /\ view_chars empty_world (FixedString.to_string_view fs) = bytes "PATH".
Proof.
  exact (FixedString_view empty_world (bytes "?????") (bytes "PATH") NUL
           eq_refl).
Defined.

Lemma FixedString_name_of_literal_witness :
  let fs := FixedString.construct (bytes "?????") (bytes "PATH" ++ [NUL]) in
  FixedString.c_string fs = bytes "PATH"
  /\ FixedString.name fs = "PATH"
  /\ sv_size (FixedString.to_string_view fs)
     = length (FixedString.c_string fs).
Proof.
  exact (FixedString_name_of_literal (bytes "?????") (bytes "PATH")
           eq_refl eq_refl).
Defined.

(** The array "PA\0TH\0": the name is "PA", the view has five characters. *)
Lemma FixedString_embedded_nul_witness :
  let fs :=
    FixedString.construct (replicate 6 NUL)
      (bytes "PA" ++ NUL :: bytes "TH" ++ [NUL]) in
  FixedString.c_string fs = bytes "PA"
  /\ sv_size (FixedString.to_string_view fs) = 5%nat
  /\ view_chars empty_world (FixedString.to_string_view fs)
     = bytes "PA" ++ NUL :: bytes "TH".
Proof.
  exact (FixedString_embedded_nul empty_world (replicate 6 NUL) (bytes "PA")
           (bytes "TH") NUL eq_refl eq_refl).
Defined.

(** [PORT] set to "abc": unparsable as an [int], [EnvHelper::get] throws
    and [EnvHelperWithDefault::get] writes to [std::cerr]. *)
Lemma failure_iff_unparsable_witness :
  (exists e, fst (EnvHelper.get "PORT" Tint false (port_is "abc")) = Throw e)
  /\ cerr (snd (EnvHelperWithDefault.get "PORT"
                  (DefaultValueType_of_value (Sint 42)) false None
                  (port_is "abc")))
     <> cerr (port_is "abc").
Proof.
  destruct (failure_iff_unparsable "PORT" Tint
              (DefaultValueType_of_value (Sint 42)) false (port_is "abc")
              (bytes "abc") lp64_ok ltac:(vm_compute; reflexivity))
    as [Hreq Hdef].
  split.
  - apply Hreq. exact unparsable_abc.
  - intros Hcerr. apply Hdef in Hcerr. apply Hcerr. exact unparsable_abc.
Defined.

(** [PORT] set to "123": the [int] read is within the 32 bits. *)
Lemma integer_result_in_range_witness :
  exists v w',
    EnvHelper.get "PORT" Tint false (port_is "123")
    = (Return (Scalar (Sint v)), w')
    /\ INT_MIN <= v <= INT_MAX.
Proof.
  destruct (integer_result_in_range "PORT" Tint
              (DefaultValueType_of_value (Sint 42)) false (port_is "123")
              INT_MIN INT_MAX lp64_ok eq_refl eq_refl) as [Hreq _].
  destruct (EnvHelper.get "PORT" Tint false (port_is "123")) as [r w'] eqn:Hg.
  assert (Hr : r = Return (Scalar (Sint 123))).
  { change r with (fst (r, w')). rewrite <- Hg. vm_compute. reflexivity. }
  subst r. destruct (Hreq _ w' eq_refl) as (v & Hv & Hrange).
  exists v, w'. rewrite Hv. auto.
Defined.

(** The same environment after something has been printed: the same
    result. *)
Lemma required_depends_on_environment_only_witness :
  fst (EnvHelper.get "PORT" Tint false (port_is "123"))
  = fst (EnvHelper.get "PORT" Tint false (put_cerr [Endl] (port_is "123")))
  /\ fst (EnvHelper.get "PORT" Tint false
            (snd (EnvHelper.get "PORT" Tint false (port_is "123"))))
     = fst (EnvHelper.get "PORT" Tint false (port_is "123")).
Proof.
  destruct (required_depends_on_environment_only "PORT" Tint false
              (port_is "123") (put_cerr [Endl] (port_is "123"))
              eq_refl eq_refl) as (H1 & H2 & _).
  split; assumption.
Defined.

(** [PORT] set to "8080", read as text with default "teee", then its array
    overwritten with "9090": the memoized view now denotes "9090". *)
Lemma memoized_view_aliases_environment_witness :
  let d := DefaultValueType_of_array (bytes "teee" ++ [NUL]) in
  let sv := {| sv_data := EnvPtr 0; sv_size := 4 |} in
  exists w1,
    EnvHelperWithDefault.get "PORT" d false None (port_is "8080")
    = (Return (View sv), Some (View sv), w1)
    /\ view_chars w1 sv = bytes "8080"
    /\ view_chars (overwrite 0 (bytes "9090" ++ [NUL]) w1) sv = bytes "9090".
Proof.
  intros d sv.
  destruct (memoized_view_aliases_environment "PORT"
              (bytes "teee" ++ [NUL]) false (port_is "8080") 0%N
              (bytes "9090" ++ [NUL]) ltac:(vm_compute; reflexivity))
    as (w1 & Hget & Hchars & _ & Hafter).
  exists w1. split; [exact Hget|]. split; [exact Hchars|exact Hafter].
Defined.

(** [main] in an empty environment prints teee, a, 123.4 and 123. *)
Lemma main_prints_defaults_witness :
  exists w',
    @main lp64 lp64_123_4 empty_world = (Return 0, w')
    /\ cout w' =
       [Exported (View {| sv_data := ParamObj (bytes "teee" ++ [NUL]);
                          sv_size := 4 |}); Endl;
        Exported (Scalar (Schar x61)); Endl;
        Exported (Scalar (Sdouble lp64_123_4)); Endl;
        Exported (Scalar (Sint 123)); Endl]
    /\ cerr w' = [].
Proof.
  exact (@main_prints_defaults lp64 lp64_123_4 empty_world
           ltac:(vm_compute; reflexivity) ltac:(vm_compute; reflexivity)).
Defined.

(** [main] with [PATH] set to "/bin": the lines begin with a view of four
    characters on the environment and with '/'. *)
Lemma main_prints_PATH_witness :
  exists v3 v4 w',
    @main lp64 lp64_123_4
      (setenv "PATH" (bytes "/bin") empty_world)
    = (Return 0, w')
    /\ cout w' =
       [Exported (View {| sv_data := EnvPtr 0; sv_size := 4 |}); Endl;
        Exported (Scalar (Schar x2f)); Endl;
        Exported v3; Endl; Exported v4; Endl].
Proof.
  destruct (@main_prints_PATH lp64 lp64_123_4
              (setenv "PATH" (bytes "/bin") empty_world) 0%N (bytes "/bin")
              ltac:(vm_compute; reflexivity) ltac:(vm_compute; reflexivity))
    as (v3 & v4 & w' & Hmain & Hcout & _).
  exists v3, v4, w'. split; [exact Hmain|exact Hcout].
Defined.

(** "007" with the [int] target is 7. *)
Lemma leading_zeros_are_decimal_witness :
  fst (EnvHelper.get "PORT" Tint false (port_is "007"))
  = Return (Scalar (Sint 7))
  /\ fst (fst (EnvHelperWithDefault.get "PORT"
                 (DefaultValueType_of_value (Sint 42)) false None
                 (port_is "007")))
     = Return (Scalar (Sint 7)).
Proof.
  exact (leading_zeros_are_decimal Tint INT_MIN INT_MAX
           {| spaces := []; sign := NoSign; digits := bytes "7" |} 2 []
           "PORT" (DefaultValueType_of_value (Sint 42)) false
           (port_is "007") lp64_ok eq_refl eq_refl eq_refl
           ltac:(vm_compute; split; discriminate)
           ltac:(vm_compute; reflexivity) eq_refl).
Defined.

(** "abc" throws [invalid_argument], "99999999999" [out_of_range]. *)
Lemma integer_exception_kinds_witness :
  fst (EnvHelper.get "PORT" Tint false (port_is "abc"))
  = Throw (invalid_argument "stoi")
  /\ fst (EnvHelper.get "PORT" Tint false (port_is "99999999999"))
     = Throw (out_of_range "stoi").
Proof.
  destruct (integer_exception_kinds "PORT" Tint INT_MIN INT_MAX
              (DefaultValueType_of_value (Sint 42)) false (port_is "abc")
              (bytes "abc") lp64_ok eq_refl eq_refl
              ltac:(vm_compute; reflexivity)) as [Hno _].
  destruct (integer_exception_kinds "PORT" Tint INT_MIN INT_MAX
              (DefaultValueType_of_value (Sint 42)) false
              (port_is "99999999999") (bytes "99999999999") lp64_ok
              eq_refl eq_refl ltac:(vm_compute; reflexivity)) as [_ Hbig].
  split.
  - exact (proj1 (Hno eq_refl)).
  - exact (proj1 (Hbig {| spaces := []; sign := NoSign;
                          digits := bytes "99999999999" |} []
                    eq_refl eq_refl eq_refl
                    ltac:(right; vm_compute; reflexivity))).
Defined.
